(** * Soundify: a shallow embedding of [app.py] (catalog store, metadata
    resolver, upload and deletion handlers) and the properties of its spec. *)

From Stdlib Require Import String Ascii List ZArith Bool Lia.
From Stdlib Require Import DecimalString.
Import ListNotations.
Open Scope list_scope.
Open Scope string_scope.
Set Warnings "-register-all".

(* ================================================================== *)
(** ** String helpers: the [str] methods the source uses *)

(** [s.split(c)] *)
Fixpoint split_on (c : ascii) (s : string) : list string :=
  match s with
  | EmptyString => [""]
  | String a r =>
      let rest := split_on c r in
      if Ascii.eqb a c then "" :: rest
      else match rest with
           | h :: t => String a h :: t
           | [] => [String a ""]
           end
  end.

(** [sep.join(l)] *)
Fixpoint join (sep : string) (l : list string) : string :=
  match l with
  | [] => ""
  | [x] => x
  | x :: r => x ++ sep ++ join sep r
  end.

(** [s.lstrip('/')] *)
Fixpoint lstrip_slash (s : string) : string :=
  match s with
  | String a r => if Ascii.eqb a "/"%char then lstrip_slash r else s
  | EmptyString => s
  end.

(** [s.startswith(p)] *)
Definition startswith (s p : string) : bool := String.prefix p s.

(** [c in s] for a single character *)
Fixpoint has_char (c : ascii) (s : string) : bool :=
  match s with
  | EmptyString => false
  | String a r => Ascii.eqb a c || has_char c r
  end.

(** [sub in s] *)
Fixpoint has_sub (sub s : string) : bool :=
  String.prefix sub s ||
  match s with
  | EmptyString => false
  | String _ r => has_sub sub r
  end.

(** [s.lower()] on ASCII letters *)
Definition lower_char (a : ascii) : ascii :=
  let n := nat_of_ascii a in
  if Nat.leb 65 n && Nat.leb n 90 then ascii_of_nat (n + 32) else a.

Fixpoint lower (s : string) : string :=
  match s with
  | EmptyString => EmptyString
  | String a r => String (lower_char a) (lower r)
  end.

(** [s.rsplit(sep, 1)[-1]]: the text after the last separator *)
Definition after_last (c : ascii) (s : string) : string :=
  last (split_on c s) "".

Definition str_in (s : string) (l : list string) : bool :=
  existsb (String.eqb s) l.

(** decimal spelling of an integer, as [str(z)] *)
Definition z_dec (z : Z) : string := NilZero.string_of_int (Z.to_int z).

(* ================================================================== *)
(** ** Python values (the JSON-representable ones, without fractional
    numbers) and dicts *)

Inductive pyval : Type :=
| PNone
| PBool (b : bool)
| PInt (z : Z)
| PStr (s : string)
| PList (l : list pyval)
| PDict (d : list (string * pyval)).

Definition dict := list (string * pyval).

(** Truthiness, as [if v:] evaluates it. *)
Definition truthy (v : pyval) : bool :=
  match v with
  | PNone => false
  | PBool b => b
  | PInt z => negb (Z.eqb z 0)
  | PStr s => negb (String.eqb s "")
  | PList l => match l with [] => false | _ => true end
  | PDict d => match d with [] => false | _ => true end
  end.

(** [v == s] for a string [s]: only a [str] equals a [str]. *)
Definition py_eq_str (v : pyval) (s : string) : bool :=
  match v with PStr t => String.eqb t s | _ => false end.

Fixpoint dget (d : dict) (k : string) : option pyval :=
  match d with
  | [] => None
  | (k', v) :: r => if String.eqb k k' then Some v else dget r k
  end.

Definition dmem (d : dict) (k : string) : bool :=
  match dget d k with Some _ => true | None => false end.

(** [d.get(k, default)] *)
Definition dget_or (d : dict) (k : string) (dflt : pyval) : pyval :=
  match dget d k with Some v => v | None => dflt end.

(** [d[k] = v]: an existing key keeps its position, a new key goes last. *)
Fixpoint dset (d : dict) (k : string) (v : pyval) : dict :=
  match d with
  | [] => [(k, v)]
  | (k', v') :: r => if String.eqb k k' then (k', v) :: r else (k', v') :: dset r k v
  end.

(** [del d[k]] *)
Fixpoint ddel (d : dict) (k : string) : dict :=
  match d with
  | [] => []
  | (k', v') :: r => if String.eqb k k' then r else (k', v') :: ddel r k
  end.

(** [repr(v)] and [str(v)] (string escapes are not modelled). *)
Fixpoint py_repr (v : pyval) : string :=
  match v with
  | PNone => "None"
  | PBool true => "True"
  | PBool false => "False"
  | PInt z => z_dec z
  | PStr s => "'" ++ s ++ "'"
  | PList l =>
      "[" ++ (fix go (l : list pyval) : string :=
               match l with
               | [] => ""
               | [x] => py_repr x
               | x :: r => py_repr x ++ ", " ++ go r
               end) l ++ "]"
  | PDict d =>
      "{" ++ (fix go (d : list (string * pyval)) : string :=
               match d with
               | [] => ""
               | [(k, x)] => "'" ++ k ++ "': " ++ py_repr x
               | (k, x) :: r => "'" ++ k ++ "': " ++ py_repr x ++ ", " ++ go r
               end) d ++ "}"
  end.

Definition py_str (v : pyval) : string :=
  match v with PStr s => s | _ => py_repr v end.

(* ================================================================== *)
(** ** pathlib paths *)

(** [Path(s)]: components without empty and [.] parts; absolute when the
    text starts with [/]. *)
Record ppath := mkppath { p_abs : bool; p_comps : list string }.

Definition keep_comp (c : string) : bool :=
  negb (String.eqb c "" || String.eqb c ".").

Definition Path (s : string) : ppath :=
  mkppath (startswith s "/") (filter keep_comp (split_on "/" s)).

(** [a / b]: an absolute right operand replaces the left one. *)
Definition pjoin (a b : ppath) : ppath :=
  if p_abs b then b else mkppath (p_abs a) (app (p_comps a) (p_comps b)).

(** [Path.name] *)
Definition pname (p : ppath) : string := last (p_comps p) "".

(** Lexical [..] elimination ([/..] is [/]). *)
Fixpoint norm_comps (acc : list string) (l : list string) : list string :=
  match l with
  | [] => rev acc
  | x :: r => if String.eqb x ".." then norm_comps (tl acc) r
              else norm_comps (x :: acc) r
  end.

(** [p.resolve()] with working directory [cwd], as components; there are no
    symbolic links in the model. *)
Definition resolve (cwd : list string) (p : ppath) : list string :=
  norm_comps [] (if p_abs p then p_comps p else app cwd (p_comps p)).

(** [str()] of an absolute path *)
Definition abs_str (comps : list string) : string := "/" ++ join "/" comps.

(** [str(p.resolve())] *)
Definition resolve_str (cwd : list string) (p : ppath) : string :=
  abs_str (resolve cwd p).

(** [Path(s).stem] *)
Definition stem (s : string) : string :=
  let name := pname (Path s) in
  let pieces := split_on "." name in
  let suffix := last pieces "" in
  let i := String.length name - String.length suffix - 1 in
  if Nat.ltb 0 i && Nat.ltb i (String.length name - 1) && has_char "."%char name
  then substring 0 i name else name.

(* ================================================================== *)
(** ** Configuration constants *)

Definition UPLOAD_FOLDER := "uploads".
Definition COVERS_FOLDER_NAME := "covers".
(** [os.path.join(UPLOAD_FOLDER, COVERS_FOLDER_NAME)] *)
Definition COVERS_FOLDER := UPLOAD_FOLDER ++ "/" ++ COVERS_FOLDER_NAME.
Definition ALLOWED_EXTENSIONS := ["mp3"].
Definition ALLOWED_COVER_EXTENSIONS := ["png"; "jpg"; "jpeg"; "gif"].

Definition allowed_file (filename : string) : bool :=
  has_char "."%char filename &&
  str_in (lower (after_last "."%char filename)) ALLOWED_EXTENSIONS.

Definition allowed_cover_file (filename : string) : bool :=
  has_char "."%char filename &&
  str_in (lower (after_last "."%char filename)) ALLOWED_COVER_EXTENSIONS.

(* ================================================================== *)
(** ** The world: disk, catalog file and the exceptions of Python *)

Inductive exc : Type :=
| TypeError | AttributeError | KeyError | IndexError
| UnicodeDecodeError | JSONDecodeError | IOError | OSError.

(** Contents of [library.json]: not UTF-8, UTF-8 but not JSON, or JSON text
    decoding to [v]; [fmt] tells apart different spellings of one value
    ([json.dump(..., indent=4)] writes spelling [0]). *)
Inductive contents : Type :=
| BadUtf8
| BadJson
| JsonText (fmt : nat) (v : pyval).

Inductive lib_file : Type :=
| LibAbsent
| LibUnreadable            (* exists, but [open] raises an [OSError] *)
| LibPresent (c : contents).

(** ID3 data as mutagen reports it. *)
Inductive frame : Type :=
| APIC (mime : string) (data : string)
| OtherFrame.

(** [EasyID3(path)]: its tags, or [ID3NoHeaderError], or another exception. *)
Inductive easy_read : Type :=
| EasyOk (tags : list (string * list string))
| EasyNoHeader
| EasyFail.

(** [MP3(path, ID3=ID3)]: its [tags] (maybe [None]), or an exception. *)
Inductive full_read : Type :=
| FullOk (tags : option (list (string * frame)))
| FullFail.

Inductive blob : Type :=
| Audio (e : easy_read) (f : full_read)
| Image (data : string)
| Opaque.

(** Regular files are keyed by their resolved absolute path. *)
Record world := mkworld {
  w_cwd : list string;
  w_files : list (string * blob);
  w_locked : list string;        (* [os.remove] raises [OSError] on these *)
  w_readonly : list string;      (* creating a file here raises [OSError] *)
  w_library : lib_file;          (* [library.json] in the working directory *)
  w_lib_writable : bool;
  w_uuid : nat                   (* how many [uuid4()] were drawn *)
}.

Definition set_files (w : world) (f : list (string * blob)) : world :=
  mkworld (w_cwd w) f (w_locked w) (w_readonly w) (w_library w) (w_lib_writable w) (w_uuid w).
Definition set_library (w : world) (l : lib_file) : world :=
  mkworld (w_cwd w) (w_files w) (w_locked w) (w_readonly w) l (w_lib_writable w) (w_uuid w).
Definition set_uuid (w : world) (n : nat) : world :=
  mkworld (w_cwd w) (w_files w) (w_locked w) (w_readonly w) (w_library w) (w_lib_writable w) n.

(** [str(uuid.uuid4())]: the [n]-th draw; only its shape matters (a [str] of
    more than ten characters), its randomness is modelled by the counter. *)
Definition uuid_str (n : nat) : string :=
  "0f3c2a9e-7b41-4d2a-9e6b-" ++ NilZero.string_of_uint (Nat.to_uint n).

Fixpoint fs_lookup (f : list (string * blob)) (p : string) : option blob :=
  match f with
  | [] => None
  | (q, b) :: r => if String.eqb p q then Some b else fs_lookup r p
  end.

Definition fs_is_file (w : world) (p : string) : bool :=
  match fs_lookup (w_files w) p with Some _ => true | None => false end.

(** A directory: the root, an ancestor of a file, or [uploads/covers] (made
    at start-up) or one of its ancestors. *)
Definition fs_is_dir (w : world) (comps : list string) : bool :=
  match comps with
  | [] => true
  | _ :: _ =>
      let s := abs_str comps in
      existsb (fun qb => startswith (fst qb) (s ++ "/")) (w_files w) ||
      startswith (resolve_str (w_cwd w) (Path COVERS_FOLDER) ++ "/") (s ++ "/")
  end.

(** The kernel's walk of the components [l] of a path from the directory
    [cur]: every component before the last names a directory, [..] steps to
    the parent; [None] when a component is missing or not a directory. *)
Fixpoint walk (w : world) (cur : list string) (l : list string) : option (list string) :=
  match l with
  | [] => Some cur
  | c :: r =>
      if String.eqb c ".." then walk w (removelast cur) r
      else match r with
           | [] => Some (app cur [c])
           | _ :: _ => if fs_is_dir w (app cur [c]) then walk w (app cur [c]) r else None
           end
  end.

(** [p.exists() and p.is_file()] on the unresolved path [p]. *)
Definition path_is_file (w : world) (p : ppath) : bool :=
  match walk w (if p_abs p then [] else w_cwd w) (p_comps p) with
  | Some cs => fs_is_file w (abs_str cs)
  | None => false
  end.

Fixpoint fs_remove (f : list (string * blob)) (p : string) : list (string * blob) :=
  match f with
  | [] => []
  | (q, b) :: r => if String.eqb p q then fs_remove r p else (q, b) :: fs_remove r p
  end.

Definition fs_write (f : list (string * blob)) (p : string) (b : blob) : list (string * blob) :=
  (p, b) :: fs_remove f p.

(** A small state and exception monad: a raised exception keeps the state
    changes made before it. *)
Inductive result (A : Type) : Type :=
| Ok (a : A)
| Raise (e : exc).
Arguments Ok {A} a.
Arguments Raise {A} e.

Definition M (A : Type) : Type := world -> world * result A.

Definition ret {A} (a : A) : M A := fun w => (w, Ok a).
Definition raise {A} (e : exc) : M A := fun w => (w, Raise e).
Definition bind {A B} (m : M A) (k : A -> M B) : M B :=
  fun w => match m w with
           | (w', Ok a) => k a w'
           | (w', Raise e) => (w', Raise e)
           end.
Definition get_world : M world := fun w => (w, Ok w).
Definition put_world (w' : world) : M unit := fun _ => (w', Ok tt).

Notation "x <- m ;; k" := (bind m (fun x => k))
  (at level 61, m at next level, right associativity).
Notation "m ;;; k" := (bind m (fun _ => k))
  (at level 61, right associativity).

Definition fresh_uuid : M string :=
  fun w => (set_uuid w (S (w_uuid w)), Ok (uuid_str (w_uuid w))).

(* ================================================================== *)
(** ** Catalog store: [save_library] and [load_library] *)

Definition empty_library : pyval := PDict [("songs", PDict [])].

(** The key a value takes in a [dict] that [json.dump] then writes; a [list]
    or [dict] is unhashable. *)
Definition json_key (v : pyval) : option string :=
  match v with
  | PStr s => Some s
  | PInt z => Some (z_dec z)
  | PNone => Some "null"
  | PBool true => Some "true"
  | PBool false => Some "false"
  | _ => None
  end.

(** [a == b] for two hashable [dict] keys: [True == 1] and [False == 0],
    and a [str] never equals a number. *)
Definition py_key_eq (a b : pyval) : bool :=
  match a, b with
  | PStr x, PStr y => String.eqb x y
  | PInt x, PInt y => Z.eqb x y
  | PBool x, PBool y => Bool.eqb x y
  | PBool x, PInt y => Z.eqb y (if x then 1 else 0)
  | PInt x, PBool y => Z.eqb x (if y then 1 else 0)
  | PNone, PNone => true
  | _, _ => false
  end.

(** [d[k] = v] on a [dict] whose keys are any hashable values: a key equal
    to [k] keeps its place and its first spelling, a new key goes last. *)
Fixpoint kset (d : list (pyval * pyval)) (k v : pyval) : list (pyval * pyval) :=
  match d with
  | [] => [(k, v)]
  | (k', v') :: r => if py_key_eq k' k then (k', v) :: r else (k', v') :: kset r k v
  end.

(** The [corrected_songs] loop of [save_library], keyed by the [id] values
    themselves; [None] is the [TypeError] of an unhashable [id]. *)
Fixpoint rekey (songs : dict) (acc : list (pyval * pyval)) : option (list (pyval * pyval)) :=
  match songs with
  | [] => Some acc
  | (_, sd) :: r =>
      match sd with
      | PDict d =>
          match dget d "id" with
          | Some idv =>
              match json_key idv with
              | Some _ => rekey r (kset acc idv sd)
              | None => None
              end
          | None => rekey r acc
          end
      | _ => rekey r acc
      end
  end.

(** The text [json.dump] writes for a key ([json_key] of a hashable value). *)
Definition key_text (k : pyval) : string :=
  match json_key k with Some s => s | None => "" end.

(** The members [json.dump] writes for a [dict], in order; two keys may get
    one text, as [1] and ["1"] do. *)
Definition dump_members (c : list (pyval * pyval)) : dict :=
  map (fun kv => (key_text (fst kv), snd kv)) c.

Fixpoint str_nodup (l : list string) : bool :=
  match l with
  | [] => true
  | x :: r => negb (str_in x r) && str_nodup r
  end.

(** Inserting every entry in order, as [d[k] = v] in a loop. *)
Fixpoint dset_all (acc : dict) (items : dict) : dict :=
  match items with
  | [] => acc
  | (k, v) :: r => dset_all (dset acc k v) r
  end.

(** The [songs] object of the written text, as [json.load] reads it back:
    a repeated member keeps its first place and its last value. *)
Definition dumped_songs (c : list (pyval * pyval)) : dict :=
  dset_all [] (dump_members c).

(** The spelling of the text: [0], [json.dump]'s own spelling of the value
    it decodes to, unless a member is repeated; such a text is spelling [1]
    (the model does not tell such texts apart). *)
Definition dump_fmt (c : list (pyval * pyval)) : nat :=
  if str_nodup (map fst (dump_members c)) then 0 else 1.

(** [open(library_path, 'w')] and [json.dump]: the success flag. *)
Definition write_library (fmt : nat) (v : pyval) : M bool :=
  fun w => if w_lib_writable w then (set_library w (LibPresent (JsonText fmt v)), Ok true)
           else (w, Ok false).

(** [save_library(library_data)]: besides the flag, returns the value the
    caller's object holds afterwards ([library_data["songs"]] is reassigned
    in place when the argument passed the structure check), with the keys of
    its [songs] as the file spells them (the object itself when every [id]
    is a [str]: [dict] keys that are not [str]s are outside [pyval]); the one
    caller that uses it, [load_library], passes records whose [id]s are their
    [str] keys. *)
Definition save_library (library_data : pyval) : M (pyval * bool) :=
  match library_data with
  | PDict d =>
      match dget d "songs" with
      | Some (PDict songs) =>
          match rekey songs [] with
          | None => ret (library_data, false)
          | Some corrected =>
              let data' := PDict (dset d "songs" (PDict (dumped_songs corrected))) in
              ok <- write_library (dump_fmt corrected) data';;
              ret (data', ok)
          end
      | other =>
          (* [library_data = {"songs": library_data.get("songs", {})}] *)
          match (match other with None => PDict [] | Some v => v end) with
          | PDict songs =>
              match rekey songs [] with
              | None => ret (library_data, false)
              | Some corrected =>
                  ok <- write_library (dump_fmt corrected)
                          (PDict [("songs", PDict (dumped_songs corrected))]);;
                  ret (library_data, ok)
              end
          | _ => raise AttributeError       (* [.items()] of a non-dict *)
          end
      end
  (* [library_data["songs"]] on a list or str, and ["songs" in 5], raise the
     [TypeError] the handler catches; [.get] of a list or str raises an
     [AttributeError] it does not catch *)
  | PList l => if existsb (fun x => py_eq_str x "songs") l then ret (library_data, false)
               else raise AttributeError
  | PStr s => if has_sub "songs" s then ret (library_data, false) else raise AttributeError
  | _ => ret (library_data, false)
  end.

(** One round of the normalisation loop of [load_library]: the id the entry
    is stored under, the updated record and whether it changed. *)
Definition normalize_entry (key : string) (song_data : pyval) : M (string * pyval * bool) :=
  match song_data with
  | PDict d =>
      (* [song_id = song_data.get('id', key)] and the length gate *)
      idr <- match dget_or d "id" (PStr key) with
             | PStr s => if Nat.leb 10 (String.length s) then ret (s, false)
                         else u <- fresh_uuid;; ret (u, true)
             | _ => u <- fresh_uuid;; ret (u, true)
             end;;
      let '(song_id, ns1) := idr in
      let '(d1, ns2) :=
        match dget d "id" with
        | Some v => if py_eq_str v song_id then (d, false)
                    else (dset d "id" (PStr song_id), true)
        | None => (dset d "id" (PStr song_id), true)
        end in
      let '(d2, ns3) :=
        match dget d1 "audioSrc", dget d1 "filename" with
        | None, Some fn => (dset d1 "audioSrc" (PStr ("/uploads/" ++ py_str fn)), true)
        | _, _ => (d1, false)
        end in
      r3 <- match dget d2 "coverSrc" with
            | Some c =>
                if truthy c then
                  match c with
                  | PStr s =>
                      if startswith s "/" then ret (d2, false)
                      else ret (dset d2 "coverSrc"
                                  (PStr ("/" ++ COVERS_FOLDER_NAME ++ "/" ++ pname (Path s))), true)
                  | _ => raise AttributeError     (* [.startswith] of a non-str *)
                  end
                else ret (d2, false)
            | None => ret (d2, false)
            end;;
      let '(d3, ns4) := r3 in
      ret (song_id, PDict d3, ns1 || ns2 || ns3 || ns4)
  | _ => raise AttributeError                     (* [.get] of a non-dict *)
  end.

Fixpoint normalize_all (items : dict) (updated : dict) (needs_save : bool) : M (dict * bool) :=
  match items with
  | [] => ret (updated, needs_save)
  | (key, sd) :: r =>
      e <- normalize_entry key sd;;
      let '(song_id, sd', ns) := e in
      normalize_all r (dset updated song_id sd') (needs_save || ns)
  end.

(** [load_library()]. *)
Definition load_library : M pyval :=
  fun w =>
    match w_library w with
    | LibAbsent => (w, Ok empty_library)
    | LibUnreadable => (w, Ok empty_library)                 (* [IOError] caught *)
    | LibPresent BadJson => (w, Ok empty_library)            (* [JSONDecodeError] caught *)
    | LibPresent BadUtf8 => (w, Raise UnicodeDecodeError)    (* not caught *)
    | LibPresent (JsonText _ data) =>
        match data with
        | PDict d =>
            let d1 := match dget d "songs" with
                      | Some (PDict _) => d
                      | _ => dset d "songs" (PDict [])
                      end in
            let songs := match dget d1 "songs" with Some (PDict s) => s | _ => [] end in
            (r <- normalize_all songs [] false;;
             let '(updated, needs_save) := r in
             let data' := PDict (dset d1 "songs" (PDict updated)) in
             if needs_save then
               s <- save_library data';;
               ret (fst s)
             else ret data') w
        (* ["songs" not in data] / [data["songs"] = {}] on a list, str, number,
           bool or [None]: all raise [TypeError] *)
        | _ => (w, Raise TypeError)
        end
    end.

Definition songs_of (lib : pyval) : dict :=
  match lib with
  | PDict d => match dget d "songs" with Some (PDict s) => s | _ => [] end
  | _ => []
  end.


(* ================================================================== *)
(** ** HTTP responses *)

Inductive response : Type :=
| Resp (code : Z) (msg : string).

Definition status (r : response) : Z := match r with Resp c _ => c end.

(** Flask turns an exception escaping a view into a [500] response. *)
Definition flask (m : M response) (w : world) : world * response :=
  match m w with
  | (w', Ok r) => (w', r)
  | (w', Raise _) => (w', Resp 500 "Internal Server Error")
  end.

(* ================================================================== *)
(** ** Deletion handler: [delete_song] *)

(** The audio slot: [audio_file_deleted] after the [if filename:] block. *)
Definition delete_audio (filename : pyval) : M bool :=
  if truthy filename then
    match filename with
    | PStr fn =>
        w <- get_world;;
        let audio_path := pjoin (Path UPLOAD_FOLDER) (Path fn) in
        let rp := resolve_str (w_cwd w) audio_path in
        (* with no symbolic links, a walk that succeeds ends at [rp], the
           file [os.remove(audio_path)] removes *)
        if path_is_file w audio_path then
          if startswith rp (resolve_str (w_cwd w) (Path UPLOAD_FOLDER)) then
            if str_in rp (w_locked w) then ret false      (* [OSError] caught *)
            else put_world (set_files w (fs_remove (w_files w) rp));;; ret true
          else ret false                                  (* security risk *)
        else ret true                                     (* already absent *)
    | _ => raise TypeError                                (* [Path / non-str] *)
    end
  else ret true.

(** The cover slot: [cover_file_deleted] after the [if cover_src:] block. *)
Definition delete_cover (cover_src : pyval) : M bool :=
  if truthy cover_src then
    match cover_src with
    | PStr cs =>
        let cover_path_rel := lstrip_slash cs in
        if startswith cover_path_rel (COVERS_FOLDER_NAME ++ "/") then
          w <- get_world;;
          let cover_path_abs := pjoin (Path UPLOAD_FOLDER) (Path cover_path_rel) in
          let rp := resolve_str (w_cwd w) cover_path_abs in
          if path_is_file w cover_path_abs then
            if startswith rp (resolve_str (w_cwd w) (Path COVERS_FOLDER)) then
              if str_in rp (w_locked w) then ret false
              else put_world (set_files w (fs_remove (w_files w) rp));;; ret true
            else ret false
          else ret true
        else ret true                                     (* invalid coverSrc format *)
    | _ => raise AttributeError                           (* [.lstrip] of a non-str *)
    end
  else ret true.

Definition delete_song (song_id : string) : M response :=
  library_data <- load_library;;
  let songs := songs_of library_data in
  match dget songs song_id with
  | None => ret (Resp 404 "Song not found")
  | Some song_info =>
      match song_info with
      | PDict si =>
          audio_file_deleted <- delete_audio (dget_or si "filename" PNone);;
          cover_file_deleted <- delete_cover (dget_or si "coverSrc" PNone);;
          if audio_file_deleted && cover_file_deleted then
            let lib' := match library_data with
                        | PDict d => PDict (dset d "songs" (PDict (ddel songs song_id)))
                        | v => v
                        end in
            s <- save_library lib';;
            if snd s then
              ret (Resp 200 ("Song '" ++ py_str (dget_or si "title" (PStr song_id)) ++ "' deleted."))
            else ret (Resp 500 "Files deleted, but failed to update library metadata. Please check manually.")
          else if negb audio_file_deleted && negb cover_file_deleted then
            ret (Resp 500 "Failed to delete both audio and cover files.")
          else if negb audio_file_deleted then ret (Resp 500 "Failed to delete audio file.")
          else ret (Resp 500 "Failed to delete cover file.")
      | _ => raise AttributeError
      end
  end.

Definition delete_song_view (song_id : string) (w : world) : world * response :=
  flask (delete_song song_id) w.

(* ================================================================== *)
(** ** Metadata resolver: [get_song_metadata] *)

(** A werkzeug [FileStorage]: its [filename] and what [save] writes. *)
Record upload := mkupload { uf_filename : string; uf_blob : blob }.

(** [if manual_artist:] *)
Definition manual_given (m : option string) : option string :=
  match m with
  | Some s => if String.eqb s "" then None else Some s
  | None => None
  end.

Record metadata := mkmeta {
  m_id : string;
  m_filename : string;
  m_title : string;
  m_artist : string;
  m_album : string;
  m_genre : string;
  m_audioSrc : string;
  m_coverSrc : option string
}.

Definition with_title (m : metadata) (t : string) : metadata :=
  mkmeta (m_id m) (m_filename m) t (m_artist m) (m_album m) (m_genre m) (m_audioSrc m) (m_coverSrc m).
Definition with_artist (m : metadata) (a : string) : metadata :=
  mkmeta (m_id m) (m_filename m) (m_title m) a (m_album m) (m_genre m) (m_audioSrc m) (m_coverSrc m).
Definition with_album (m : metadata) (a : string) : metadata :=
  mkmeta (m_id m) (m_filename m) (m_title m) (m_artist m) a (m_genre m) (m_audioSrc m) (m_coverSrc m).
Definition with_genre (m : metadata) (g : string) : metadata :=
  mkmeta (m_id m) (m_filename m) (m_title m) (m_artist m) (m_album m) g (m_audioSrc m) (m_coverSrc m).
Definition with_cover (m : metadata) (c : option string) : metadata :=
  mkmeta (m_id m) (m_filename m) (m_title m) (m_artist m) (m_album m) (m_genre m) (m_audioSrc m) c.

(** The record as the [dict] stored in the catalog. *)
Definition metadata_to_py (m : metadata) : pyval :=
  PDict [("id", PStr (m_id m)); ("filename", PStr (m_filename m));
         ("title", PStr (m_title m)); ("artist", PStr (m_artist m));
         ("album", PStr (m_album m)); ("genre", PStr (m_genre m));
         ("audioSrc", PStr (m_audioSrc m));
         ("coverSrc", match m_coverSrc m with Some c => PStr c | None => PNone end)].

(** [tags.get(key, [dflt])[0]]; [None] is the [IndexError] of an empty list. *)
Definition easy_get0 (tags : list (string * list string)) (key dflt : string) : option string :=
  let fix lk l := match l with
                  | [] => None
                  | (k, v) :: r => if String.eqb k key then Some v else lk r
                  end in
  match lk tags with
  | Some vs => match vs with v :: _ => Some v | [] => None end
  | None => Some dflt
  end.

(** The [try] block over [EasyID3]: the metadata once it is left, normally
    or by an exception (which then applies the manual artist). *)
Definition easy_step (tags : list (string * list string)) (manual : option string)
    (m : metadata) : metadata :=
  let on_error m := match manual_given manual with
                    | Some a => with_artist m a
                    | None => m
                    end in
  match easy_get0 tags "title" (m_title m) with
  | None => on_error m
  | Some t =>
      let m1 := with_title m t in
      let artist := match manual_given manual with
                    | Some a => Some a
                    | None => easy_get0 tags "artist" (m_artist m1)
                    end in
      match artist with
      | None => on_error m1
      | Some a =>
          let m2 := with_artist m1 a in
          match easy_get0 tags "album" (m_album m2) with
          | None => on_error m2
          | Some al =>
              let m3 := with_album m2 al in
              match easy_get0 tags "genre" (m_genre m3) with
              | None => on_error m3
              | Some g => with_genre m3 g
              end
          end
      end
  end.

Definition easy_of (b : blob) : easy_read :=
  match b with Audio e _ => e | _ => EasyNoHeader end.
Definition full_of (b : blob) : full_read :=
  match b with Audio _ f => f | _ => FullFail end.

(** Creating a file: [false] when it raises. *)
Definition write_file (rp : string) (b : blob) : M bool :=
  fun w => if str_in rp (w_readonly w) then (w, Ok false)
           else (set_files w (fs_write (w_files w) rp b), Ok true).

(** [mime_type.split('/')[-1].lower()], with [jpeg] renamed [jpg]. *)
Definition mime_ext (mime : string) : string :=
  let ext := lower (after_last "/"%char mime) in
  if String.eqb ext "jpeg" then "jpg" else ext.

(** The [for tag_name in audio_full.tags] loop: the [coverSrc] it sets. *)
Fixpoint scan_apic (song_id : string) (tags : list (string * frame)) : M (option string) :=
  match tags with
  | [] => ret None
  | (tag_name, fr) :: r =>
      if startswith tag_name "APIC" then
        match fr with
        | APIC mime data =>
            let ext := mime_ext mime in
            if str_in ext ALLOWED_COVER_EXTENSIONS then
              let cover_filename := song_id ++ "." ++ ext in
              w <- get_world;;
              let rp := resolve_str (w_cwd w) (pjoin (Path COVERS_FOLDER) (Path cover_filename)) in
              ok <- write_file rp (Image data);;
              if ok then ret (Some ("/" ++ COVERS_FOLDER_NAME ++ "/" ++ cover_filename))
              else ret None                              (* [IOError]: [break] *)
            else scan_apic song_id r                     (* unsupported mime *)
        | OtherFrame => raise AttributeError
        end
      else scan_apic song_id r
  end.

(** [try: ... except Exception: ...]: an exception keeps the state. *)
Definition catch {A} (m : M A) (dflt : A) : M A :=
  fun w => match m w with
           | (w', Ok a) => (w', Ok a)
           | (w', Raise _) => (w', Ok dflt)
           end.

(** Step 2: the [if uploaded_cover_file ...] block; the metadata and
    [cover_saved]. *)
Definition save_uploaded_cover (song_id : string) (m0 : metadata)
    (uploaded_cover_file : option upload) : M (metadata * bool) :=
  match uploaded_cover_file with
  | Some cf =>
      if negb (String.eqb (uf_filename cf) "") && allowed_cover_file (uf_filename cf) then
        let cover_ext := lower (after_last "."%char (uf_filename cf)) in
        let cover_filename := song_id ++ "." ++ cover_ext in
        w <- get_world;;
        let rp := resolve_str (w_cwd w) (pjoin (Path COVERS_FOLDER) (Path cover_filename)) in
        ok <- write_file rp (uf_blob cf);;
        if ok then ret (with_cover m0 (Some ("/" ++ COVERS_FOLDER_NAME ++ "/" ++ cover_filename)), true)
        else ret (m0, false)
      else ret (m0, false)
  | None => ret (m0, false)
  end.

(** Step 3: the [EasyID3] block. *)
Definition read_basic_tags (b : blob) (manual_artist : option string) (m1 : metadata) : metadata :=
  match easy_of b with
  | EasyOk tags => easy_step tags manual_artist m1
  | _ => match manual_given manual_artist with
         | Some a => with_artist m1 a
         | None => m1
         end
  end.

(** Step 4: the [if not cover_saved] block; the [coverSrc] it sets. *)
Definition embedded_cover (song_id : string) (b : blob) : M (option string) :=
  catch (match full_of b with
         | FullOk (Some ((_ :: _) as tags)) => scan_apic song_id tags
         | FullOk _ => ret None
         | FullFail => raise OSError
         end) None.

(** Step 6: the final pass over [artist]. *)
Definition final_artist (artist : string) (manual_artist : option string) : string :=
  if String.eqb artist "" || String.eqb artist "Unknown Artist" then
    match manual_given manual_artist with
    | Some a => a
    | None => "Unknown Artist"
    end
  else artist.

Definition get_song_metadata (mutagen_available : bool) (mp3_filepath_str song_id : string)
    (manual_artist : option string) (uploaded_cover_file : option upload) : M metadata :=
  let m0 := mkmeta song_id mp3_filepath_str (stem mp3_filepath_str)
                   "Unknown Artist" "Unknown Album" "Unknown Genre"
                   ("/uploads/" ++ mp3_filepath_str) None in
  r1 <- save_uploaded_cover song_id m0 uploaded_cover_file;;
  let '(m1, cover_saved) := r1 in
  w <- get_world;;
  let mp3_rp := resolve_str (w_cwd w) (pjoin (Path UPLOAD_FOLDER) (Path mp3_filepath_str)) in
  m3 <- match mutagen_available, fs_lookup (w_files w) mp3_rp with
        | true, Some b =>
            let m2 := read_basic_tags b manual_artist m1 in
            if cover_saved then ret m2
            else
              c <- embedded_cover song_id b;;
              match c with
              | Some cs => ret (with_cover m2 (Some cs))
              | None => ret m2
              end
        | false, _ =>
            ret (with_artist m1 (match manual_given manual_artist with
                                 | Some a => a
                                 | None => "N/A (mutagen not installed)"
                                 end))
        | true, None =>
            ret (with_artist m1 (match manual_given manual_artist with
                                 | Some a => a
                                 | None => "N/A (File missing?)"
                                 end))
        end;;
  ret (with_artist m3 (final_artist (m_artist m3) manual_artist)).

(* ================================================================== *)
(** ** Upload handler: [upload_file] *)

Record request := mkrequest {
  rq_files : list (string * upload);     (* [request.files] *)
  rq_form : list (string * string)       (* [request.form] *)
}.

Fixpoint alookup {A} (l : list (string * A)) (k : string) : option A :=
  match l with
  | [] => None
  | (k', v) :: r => if String.eqb k k' then Some v else alookup r k
  end.

(** [str.isspace] of a character, read as a code point below 256:
    [\t\n\v\f\r], [\x1c]-[\x1f], the space, [\x85] and [\xa0]. *)
Definition is_space (a : ascii) : bool :=
  let n := nat_of_ascii a in
  (Nat.leb 9 n && Nat.leb n 13) || (Nat.leb 28 n && Nat.leb n 32) ||
  Nat.eqb n 133 || Nat.eqb n 160.

Fixpoint lstrip_by (p : ascii -> bool) (s : string) : string :=
  match s with
  | String a r => if p a then lstrip_by p r else s
  | EmptyString => s
  end.

Definition rev_str (s : string) : string := string_of_list_ascii (rev (list_ascii_of_string s)).

(** [s.strip()] *)
Definition strip_by (p : ascii -> bool) (s : string) : string :=
  rev_str (lstrip_by p (rev_str (lstrip_by p s))).

(** The ASCII text [unicodedata.normalize("NFKD", c).encode("ascii", "ignore")]
    leaves of a character [c] with code point [n], [128 <= n < 256]. *)
Definition latin1_ascii (n : nat) : string :=
  if Nat.eqb n 160 || Nat.eqb n 168 || Nat.eqb n 175 || Nat.eqb n 180 || Nat.eqb n 184 then " "
  else if Nat.eqb n 170 || (Nat.leb 224 n && Nat.leb n 229) then "a"
  else if Nat.eqb n 178 then "2"
  else if Nat.eqb n 179 then "3"
  else if Nat.eqb n 185 then "1"
  else if Nat.eqb n 186 || (Nat.leb 242 n && Nat.leb n 246) then "o"
  else if Nat.eqb n 188 then "14"
  else if Nat.eqb n 189 then "12"
  else if Nat.eqb n 190 then "34"
  else if (Nat.leb 192 n && Nat.leb n 197) then "A"
  else if Nat.eqb n 199 then "C"
  else if (Nat.leb 200 n && Nat.leb n 203) then "E"
  else if (Nat.leb 204 n && Nat.leb n 207) then "I"
  else if Nat.eqb n 209 then "N"
  else if (Nat.leb 210 n && Nat.leb n 214) then "O"
  else if (Nat.leb 217 n && Nat.leb n 220) then "U"
  else if Nat.eqb n 221 then "Y"
  else if Nat.eqb n 231 then "c"
  else if (Nat.leb 232 n && Nat.leb n 235) then "e"
  else if (Nat.leb 236 n && Nat.leb n 239) then "i"
  else if Nat.eqb n 241 then "n"
  else if (Nat.leb 249 n && Nat.leb n 252) then "u"
  else if Nat.eqb n 253 || Nat.eqb n 255 then "y"
  else "".

(** [unicodedata.normalize("NFKD", s).encode("ascii", "ignore").decode("ascii")]
    of a string whose characters are code points below 256. *)
Fixpoint nfkd_ascii (s : string) : string :=
  match s with
  | EmptyString => EmptyString
  | String a r =>
      (if Nat.ltb (nat_of_ascii a) 128 then String a EmptyString
       else latin1_ascii (nat_of_ascii a)) ++ nfkd_ascii r
  end.

(** werkzeug's [secure_filename] (on POSIX): the name is reduced to ASCII by
    [NFKD], separators become spaces, runs of white space one [_],
    characters outside [[A-Za-z0-9_.-]] are dropped and [._] stripped from
    both ends. *)
Definition safe_char (a : ascii) : bool :=
  let n := nat_of_ascii a in
  (Nat.leb 48 n && Nat.leb n 57) || (Nat.leb 65 n && Nat.leb n 90) ||
  (Nat.leb 97 n && Nat.leb n 122) || Nat.eqb n 95 || Nat.eqb n 46 || Nat.eqb n 45.

Definition secure_filename (s : string) : string :=
  let l1 := map (fun a => if Ascii.eqb a "/"%char || is_space a then " "%char else a)
                (list_ascii_of_string (nfkd_ascii s)) in
  let words := filter (fun x => negb (String.eqb x "")) (split_on " "%char (string_of_list_ascii l1)) in
  let s2 := filter safe_char (list_ascii_of_string (join "_" words)) in
  strip_by (fun a => Ascii.eqb a "."%char || Ascii.eqb a "_"%char) (string_of_list_ascii s2).

(** [os.path.splitext] of a name without [/]. *)
Definition splitext (p : string) : string * string :=
  let suffix := after_last "."%char p in
  let i := String.length p - String.length suffix - 1 in
  if has_char "."%char p &&
     existsb (fun a => negb (Ascii.eqb a "."%char)) (list_ascii_of_string (substring 0 i p))
  then (substring 0 i p, substring i (String.length p - i) p)
  else (p, "").

(** [Path.exists()]: a regular file, or a directory, that is an ancestor of
    a file or one of the folders made at start-up. *)
Definition fs_exists (w : world) (rp : string) : bool :=
  fs_is_file w rp ||
  existsb (fun qb => startswith (fst qb) (rp ++ "/")) (w_files w) ||
  String.eqb rp (resolve_str (w_cwd w) (Path UPLOAD_FOLDER)) ||
  String.eqb rp (resolve_str (w_cwd w) (Path COVERS_FOLDER)).

Definition upload_path (w : world) (filename : string) : string :=
  resolve_str (w_cwd w) (pjoin (Path UPLOAD_FOLDER) (Path filename)).

(** The [while save_path.exists()] loop; every round that continues names
    an existing path, so [fuel] past their number is never reached. *)
Fixpoint free_name (w : world) (base ext : string) (counter fuel : nat) (filename : string) : string :=
  match fuel with
  | O => filename
  | S f =>
      if fs_exists w (upload_path w filename) then
        free_name w base ext (S counter) f
                  (base ++ "_" ++ NilZero.string_of_uint (Nat.to_uint counter) ++ ext)
      else filename
  end.

Definition remove_if_file (rp : string) : M unit :=
  w <- get_world;;
  if fs_is_file w rp && negb (str_in rp (w_locked w))
  then put_world (set_files w (fs_remove (w_files w) rp))
  else ret tt.

Definition upload_file (mutagen_available : bool) (rq : request) : M response :=
  match alookup (rq_files rq) "file" with
  | None => ret (Resp 400 "No MP3 file part")
  | Some mp3_file =>
      let manual_artist_name := strip_by is_space
          (match alookup (rq_form rq) "artistName" with Some a => a | None => "" end) in
      let cover_file := alookup (rq_files rq) "coverFile" in
      if String.eqb (uf_filename mp3_file) "" then ret (Resp 400 "No selected MP3 file")
      else if negb (allowed_file (uf_filename mp3_file)) then
        ret (Resp 400 ("MP3 file type not allowed for '" ++ uf_filename mp3_file ++ "'"))
      else if (match cover_file with
               | Some cf => negb (String.eqb (uf_filename cf) "") &&
                            negb (allowed_cover_file (uf_filename cf))
               | None => false
               end) then
        ret (Resp 400 ("Cover file type not allowed for '" ++
                       match cover_file with Some cf => uf_filename cf | None => "" end ++
                       "'. Use " ++ join ", " ALLOWED_COVER_EXTENSIONS ++ "."))
      else
        let filename0 := secure_filename (uf_filename mp3_file) in
        let '(base, ext) := splitext filename0 in
        w <- get_world;;
        let filename := free_name w base ext 1 (S (S (2 * length (w_files w)))) filename0 in
        let save_path := upload_path w filename in
        (* the [try] block; [meta] is the [metadata] variable the handler sees *)
        let cleanup (meta : option metadata) :=
          remove_if_file save_path;;;
          match meta with
          | Some md =>
              match m_coverSrc md with
              | Some cs =>
                  let rel := lstrip_slash cs in
                  if startswith rel (COVERS_FOLDER_NAME ++ "/") then
                    w1 <- get_world;;
                    remove_if_file (resolve_str (w_cwd w1) (pjoin (Path UPLOAD_FOLDER) (Path rel)))
                  else ret tt
              | None => ret tt
              end
          | None => ret tt
          end;;;
          ret (Resp 500 "Failed to process file") in
        ok <- write_file save_path (uf_blob mp3_file);;
        if negb ok then cleanup None
        else
          song_id <- fresh_uuid;;
          md <- get_song_metadata mutagen_available filename song_id
                  (if String.eqb manual_artist_name "" then None else Some manual_artist_name)
                  cover_file;;
          fun w2 =>
            match load_library w2 with
            | (w3, Raise _) => cleanup (Some md) w3
            | (w3, Ok library_data) =>
                let lib' := match library_data with
                            | PDict d => PDict (dset d "songs"
                                           (PDict (dset (songs_of library_data) song_id (metadata_to_py md))))
                            | v => v
                            end in
                match save_library lib' w3 with
                | (w4, Ok (_, true)) =>
                    (w4, Ok (Resp 201 ("File '" ++ filename ++ "' uploaded.")))
                | (w4, _) => cleanup (Some md) w4
                end
            end
  end.

(* ================================================================== *)
(** ** Predicates used by the statements *)

(** Containment by components: [p] lies within directory [dir]. *)
Definition within (dir p : list string) : bool :=
  Nat.leb (length dir) (length p) &&
  forallb (fun ab => String.eqb (fst ab) (snd ab)) (combine dir p).

(** The validation failures of an upload, in the words of the spec. *)
Definition upload_invalid (rq : request) : bool :=
  match alookup (rq_files rq) "file" with
  | None => true
  | Some f =>
      String.eqb (uf_filename f) "" ||
      negb (allowed_file (uf_filename f)) ||
      match alookup (rq_files rq) "coverFile" with
      | Some cf => negb (String.eqb (uf_filename cf) "") &&
                   negb (allowed_cover_file (uf_filename cf))
      | None => false
      end
  end.

(** Sample worlds used by the concrete statements. *)
Definition w_empty : world := mkworld ["app"] [] [] [] LibAbsent true 0.

(** A catalog whose record names a file of the sibling directory
    [uploads_old]. *)
Definition w_sibling : world :=
  mkworld ["app"] [("/app/uploads_old/a.mp3", Opaque)] [] []
    (LibPresent (JsonText 0 (PDict [("songs", PDict
       [("0123456789ab", PDict [("id", PStr "0123456789ab");
                                 ("filename", PStr "../uploads_old/a.mp3");
                                 ("audioSrc", PStr "/uploads/../uploads_old/a.mp3")])])])))
    true 0.

Definition w_sample : world :=
  mkworld ["app"] [("/app/uploads/a.mp3", Opaque); ("/app/uploads/covers/x.jpg", Opaque)]
          [] [] LibAbsent true 0.

(** A [coverSrc] that [load_library] leaves as it is. *)
Definition cover_rooted (c : option pyval) : bool :=
  match c with
  | None => true
  | Some v => if truthy v then match v with PStr s => startswith s "/" | _ => false end
              else true
  end.

(** A record stored under [key] that needs no normalisation: a [dict] whose
    [id] is a [str] of at least ten characters equal to [key], with an
    [audioSrc] and a [coverSrc] that is absent, falsy or rooted. *)
Definition record_normalized (key : string) (v : pyval) : bool :=
  match v with
  | PDict d =>
      match dget d "id" with
      | Some (PStr s) => Nat.leb 10 (String.length s) && String.eqb s key
      | _ => false
      end && dmem d "audioSrc" && cover_rooted (dget d "coverSrc")
  | _ => false
  end.

Definition songs_normalized (songs : dict) : bool :=
  forallb (fun kv => record_normalized (fst kv) (snd kv)) songs.

(** An already normalised catalog: [{"songs": {...}}] with normalised records. *)
Definition catalog_normalized (v : pyval) : bool :=
  match v with
  | PDict d => match dget d "songs" with
               | Some (PDict songs) => songs_normalized songs
               | _ => false
               end
  | _ => false
  end.

(** Catalog files [load_library] does not rewrite. *)
Definition lib_stable (l : lib_file) : bool :=
  match l with
  | LibAbsent | LibUnreadable | LibPresent BadJson => true
  | LibPresent BadUtf8 => false
  | LibPresent (JsonText _ v) => catalog_normalized v
  end.

(** The songs of the catalog [load_library] returns ([[]] when it raises). *)
Definition loaded_songs (w : world) : dict :=
  match load_library w with
  | (_, Ok lib) => songs_of lib
  | (_, Raise _) => []
  end.

(** Saving a catalog, then loading it. *)
Definition save_then_load (lib : pyval) : M pyval :=
  s <- save_library lib;; load_library.

(** Tag frames under an [APIC] name are pictures (as mutagen builds them). *)
Definition apic_names_are_pictures (tags : list (string * frame)) : bool :=
  forallb (fun tf => negb (startswith (fst tf) "APIC") ||
                     match snd tf with APIC _ _ => true | OtherFrame => false end) tags.

(** An embedded picture of an allowed type. *)
Definition apic_allowed (tf : string * frame) : bool :=
  startswith (fst tf) "APIC" &&
  match snd tf with
  | APIC mime _ => str_in (mime_ext mime) ALLOWED_COVER_EXTENSIONS
  | OtherFrame => false
  end.

(** The embedded cover the spec's single linear scan settles on: the first
    picture of an allowed type, written as [<song-id>.<ext>]. *)
Definition first_allowed_cover (song_id : string) (tags : list (string * frame)) : M (option string) :=
  match find apic_allowed tags with
  | Some (_, APIC mime data) =>
      let cover_filename := song_id ++ "." ++ mime_ext mime in
      w <- get_world;;
      let rp := resolve_str (w_cwd w) (pjoin (Path COVERS_FOLDER) (Path cover_filename)) in
      ok <- write_file rp (Image data);;
      if ok then ret (Some ("/" ++ COVERS_FOLDER_NAME ++ "/" ++ cover_filename)) else ret None
  | _ => ret None
  end.

(** The artist the tags supply: the first [artist] value when [EasyID3]
    reads the tags, the [title] lookup before it succeeds and the value is
    not empty. *)
Definition tag_artist (e : easy_read) : option string :=
  match e with
  | EasyOk tags =>
      match easy_get0 tags "title" "" with
      | None => None
      | Some _ => match easy_get0 tags "artist" "Unknown Artist" with
                  | Some a => if String.eqb a "" then None else Some a
                  | None => None
                  end
      end
  | _ => None
  end.

Definition resolved_artist (e : easy_read) (manual : option string) : string :=
  match manual_given manual with
  | Some a => a
  | None => match tag_artist e with Some a => a | None => "Unknown Artist" end
  end.

(** The mp3 path the resolver reads. *)
Definition mp3_target (w : world) (fn : string) : string :=
  resolve_str (w_cwd w) (pjoin (Path UPLOAD_FOLDER) (Path fn)).

(** A cover path the resolver may write. *)
Definition cover_out (w : world) (song_id ext : string) : string :=
  resolve_str (w_cwd w) (pjoin (Path COVERS_FOLDER) (Path (song_id ++ "." ++ ext))).

(** The [coverSrc] shapes the resolver produces. *)
Definition cover_form (song_id : string) (c : option string) : Prop :=
  c = None \/ exists ext, str_in ext ALLOWED_COVER_EXTENSIONS = true /\
                         c = Some ("/" ++ COVERS_FOLDER_NAME ++ "/" ++ song_id ++ "." ++ ext).

(* ================================================================== *)
(** ** Further definitions: catalog invariants, views and frames *)

(** A record that [load_library] keeps as it is under [key]: its [id] is a
    [str] equal to [key] of at least ten characters, it has an [audioSrc] or
    no [filename] to derive one from, and its [coverSrc] is absent, falsy or
    rooted. *)
Definition record_fixed (key : string) (v : pyval) : bool :=
  match v with
  | PDict d =>
      match dget d "id" with
      | Some (PStr s) => String.eqb s key && Nat.leb 10 (String.length s)
      | _ => false
      end && (dmem d "audioSrc" || negb (dmem d "filename")) && cover_rooted (dget d "coverSrc")
  | _ => false
  end.

(** Every record of [songs] is kept as it is. *)
Definition songs_fixed (songs : dict) : bool :=
  forallb (fun kv => record_fixed (fst kv) (snd kv)) songs.

(** The catalog [load_library] returns: a [songs] dict of kept records with distinct keys. *)
Definition catalog_fixed (lib : pyval) : Prop :=
  exists d songs, lib = PDict d /\ dget d "songs" = Some (PDict songs) /\
                  songs_fixed songs = true /\ NoDup (map fst songs).

(** [w'] differs from [w] only in files, and only at cover paths of [song_id]. *)
Definition covers_only (song_id : string) (w w' : world) : Prop :=
  (exists f, w' = set_files w f) /\
  forall q, (forall ext, str_in ext ALLOWED_COVER_EXTENSIONS = true -> q <> cover_out w song_id ext) ->
            fs_lookup (w_files w') q = fs_lookup (w_files w) q.

(** [m] neither reads nor changes the files on disk. *)
Definition frames {A} (m : M A) : Prop :=
  forall w f, m (set_files w f) = (set_files (fst (m w)) f, snd (m w)).


(** Worlds and requests the examples below run on. *)
Definition w_unnormalized_lib : world :=
  set_library w_empty (LibPresent (JsonText 1 (PDict [("songs", PDict
    [("abcdefghijk", PDict [("id", PStr "abcdefghijk"); ("filename", PStr "a.mp3")])])]))).

Definition w_catalog_readonly : world := mkworld ["app"] [] [] [] LibAbsent false 0.

Definition rq_song : request := mkrequest [("file", mkupload "Song.MP3" Opaque)] [].

Definition cover_png : upload := mkupload "Cover.PNG" Opaque.

(* ================================================================== *)
(** ** Deletion slots *)

(** C1 (code bug): the containment check of [delete_song] is a string-prefix
    test. A record whose [filename] is [../uploads_old/a.mp3] names the file
    [/app/uploads_old/a.mp3], which lies outside [/app/uploads]; its path
    starts with the text [/app/uploads], so the handler deletes it and answers
    [200]. *)
Theorem C1_sibling_directory_file_deleted :
  within ["app"; "uploads"]
         (resolve (w_cwd w_sibling) (pjoin (Path UPLOAD_FOLDER) (Path "../uploads_old/a.mp3"))) = false /\
  fs_lookup (w_files w_sibling) "/app/uploads_old/a.mp3" = Some Opaque /\
  let (w', r) := delete_song_view "0123456789ab" w_sibling in
  status r = 200%Z /\ fs_lookup (w_files w') "/app/uploads_old/a.mp3" = None.
Proof. vm_compute. repeat split. Qed.

(** C10: a non-empty [coverSrc] that, stripped of its leading slashes, does
    not start with [covers/] makes the cover slot succeed without touching
    the disk. *)
Theorem C10_malformed_cover_trivial (w : world) (cs : string)
    (Hcs : cs <> "")
    (Hpre : startswith (lstrip_slash cs) (COVERS_FOLDER_NAME ++ "/") = false) :
  delete_cover (PStr cs) w = (w, Ok true).
Proof.
  apply String.eqb_neq in Hcs.
  unfold delete_cover. cbn [truthy]. rewrite Hcs. simpl.
  simpl in Hpre; rewrite Hpre. reflexivity.
Qed.

Lemma C10_malformed_cover_trivial_witness :
  ("/music/x.jpg" <> "" /\
   startswith (lstrip_slash "/music/x.jpg") (COVERS_FOLDER_NAME ++ "/") = false) /\
  delete_cover (PStr "/music/x.jpg") w_sample = (w_sample, Ok true).
Proof.
  split.
  - split; [discriminate | reflexivity].
  - apply (C10_malformed_cover_trivial w_sample "/music/x.jpg"); [discriminate | reflexivity].
Defined.

(* ================================================================== *)
(** ** Upload validation *)

(** C8: an upload that fails validation (no audio part, empty audio name,
    audio extension other than [mp3] in any case, or a named cover whose
    extension is not an allowed image type) is answered [400] and leaves
    the world unchanged: no audio or cover file is written. *)
Theorem C8_invalid_upload_rejected (mutagen_available : bool) (rq : request) (w : world)
    (Hinv : upload_invalid rq = true) :
  exists msg, upload_file mutagen_available rq w = (w, Ok (Resp 400 msg)).
Proof.
  unfold upload_invalid in Hinv. unfold upload_file.
  destruct (alookup (rq_files rq) "file") as [f|]; [|eexists; reflexivity].
  destruct (String.eqb (uf_filename f) "") eqn:E1; [eexists; reflexivity|].
  destruct (allowed_file (uf_filename f)) eqn:E2; [|eexists; reflexivity].
  simpl in Hinv. rewrite Hinv. eexists; reflexivity.
Qed.

Lemma C8_invalid_upload_rejected_witness :
  let rq := mkrequest [("file", mkupload "notes.txt" Opaque)] [] in
  upload_invalid rq = true /\
  exists msg, upload_file true rq w_sample = (w_sample, Ok (Resp 400 msg)).
Proof.
  split.
  - reflexivity.
  - apply C8_invalid_upload_rejected. reflexivity.
Defined.

(* ================================================================== *)
(** ** Dict lemmas *)

Lemma dget_dset_eq (d : dict) (k : string) (v : pyval) : dget (dset d k v) k = Some v.
Proof.
  induction d as [|[k' v'] r IH]; simpl.
  - rewrite String.eqb_refl. reflexivity.
  - destruct (String.eqb k k') eqn:E; simpl.
    + rewrite E. reflexivity.
    + rewrite E. exact IH.
Qed.

Lemma dget_dset_neq (d : dict) (k k' : string) (v : pyval) :
  k <> k' -> dget (dset d k v) k' = dget d k'.
Proof.
  intros Hne. induction d as [|[j u] r IH]; simpl.
  - destruct (String.eqb k' k) eqn:E; [apply String.eqb_eq in E; congruence | reflexivity].
  - destruct (String.eqb k j) eqn:E; simpl.
    + apply String.eqb_eq in E; subst j.
      destruct (String.eqb k' k) eqn:E'; [apply String.eqb_eq in E'; congruence | reflexivity].
    + destruct (String.eqb k' j); [reflexivity | exact IH].
Qed.

Lemma dset_same (d : dict) (k : string) (v : pyval) : dget d k = Some v -> dset d k v = d.
Proof.
  induction d as [|[j u] r IH]; simpl; [discriminate|].
  destruct (String.eqb k j) eqn:E.
  - intros H; injection H as ->. reflexivity.
  - intros H. rewrite (IH H). reflexivity.
Qed.

Lemma dset_new (d : dict) (k : string) (v : pyval) : dget d k = None -> dset d k v = (d ++ [(k, v)])%list.
Proof.
  induction d as [|[j u] r IH]; simpl; [reflexivity|].
  destruct (String.eqb k j); [discriminate|].
  intros H. rewrite (IH H). reflexivity.
Qed.

Lemma dget_app (l1 l2 : dict) (k : string) :
  dget (l1 ++ l2)%list k = match dget l1 k with Some v => Some v | None => dget l2 k end.
Proof.
  induction l1 as [|[j u] r IH]; simpl; [reflexivity|].
  destruct (String.eqb k j); [reflexivity | exact IH].
Qed.

Lemma dset_all_nodup (items acc : dict) :
  NoDup (map fst items) ->
  (forall k, In k (map fst items) -> dget acc k = None) ->
  dset_all acc items = (acc ++ items)%list.
Proof.
  revert acc. induction items as [|[k v] r IH]; intros acc Hnd Hfresh; simpl.
  - rewrite app_nil_r. reflexivity.
  - inversion Hnd as [|? ? Hnotin Hnd']; subst.
    rewrite dset_new by (apply Hfresh; left; reflexivity).
    rewrite IH; [rewrite <- app_assoc; reflexivity | exact Hnd' |].
    intros k' Hin. rewrite dget_app. rewrite (Hfresh k' (or_intror Hin)). simpl.
    destruct (String.eqb k' k) eqn:E; [|reflexivity].
    apply String.eqb_eq in E; subst. contradiction.
Qed.

Lemma dset_all_nil (items : dict) : NoDup (map fst items) -> dset_all [] items = items.
Proof. intros H. rewrite dset_all_nodup; [reflexivity | exact H | reflexivity]. Qed.

(** Records stored under their own [str] [id]. *)
Definition ids_are_keys (songs : dict) : bool :=
  forallb (fun kv => match snd kv with
                     | PDict d => match dget d "id" with
                                  | Some (PStr s) => String.eqb s (fst kv)
                                  | _ => false
                                  end
                     | _ => false
                     end) songs.

(** A [dict] whose keys are all [str]s. *)
Definition all_str (c : list (pyval * pyval)) : bool :=
  forallb (fun kv => match fst kv with PStr _ => true | _ => false end) c.

Lemma kset_dump (c : list (pyval * pyval)) (k : string) (v : pyval) :
  all_str c = true ->
  all_str (kset c (PStr k) v) = true /\
  dump_members (kset c (PStr k) v) = dset (dump_members c) k v.
Proof.
  induction c as [|[k' v'] r IH]; intros H; [split; reflexivity|].
  simpl in H. destruct k' as [| | |s| |]; try discriminate.
  destruct (IH H) as [IH1 IH2]. unfold dump_members in *. simpl.
  change (key_text (PStr s)) with s. rewrite (String.eqb_sym s k).
  destruct (String.eqb k s); simpl; [split; [exact H | reflexivity]|].
  split; [exact IH1 | rewrite IH2; reflexivity].
Qed.

Lemma rekey_ids (songs : dict) (acc : list (pyval * pyval)) :
  ids_are_keys songs = true -> all_str acc = true ->
  exists c, rekey songs acc = Some c /\ all_str c = true /\
            dump_members c = dset_all (dump_members acc) songs.
Proof.
  revert acc. induction songs as [|[k sd] r IH]; intros acc H Ha;
    [exists acc; split; [reflexivity | split; [exact Ha | reflexivity]]|].
  simpl in H. apply andb_prop in H as [H1 H2].
  destruct sd as [| | | | |d]; try discriminate.
  destruct (dget d "id") as [[| | |s| |]|] eqn:Ei; try discriminate.
  apply String.eqb_eq in H1; subst s.
  destruct (kset_dump acc k (PDict d) Ha) as [Hk1 Hk2].
  destruct (IH _ H2 Hk1) as [c [Hc1 [Hc2 Hc3]]].
  exists c. simpl. rewrite Ei. simpl. split; [exact Hc1 | split; [exact Hc2|]].
  rewrite Hc3, Hk2. reflexivity.
Qed.

Lemma str_nodup_NoDup (l : list string) : NoDup l -> str_nodup l = true.
Proof.
  induction 1 as [|x r Hx _ IH]; [reflexivity|]. simpl. rewrite IH, andb_true_r.
  destruct (str_in x r) eqn:E; [|reflexivity]. exfalso. apply Hx.
  unfold str_in in E. apply existsb_exists in E as [y [Hy Ey]].
  apply String.eqb_eq in Ey; subst y. exact Hy.
Qed.

(** The loop of [save_library] on records stored under their own [id]s with
    distinct keys: the text written back decodes to the same [songs], in
    [json.dump]'s own spelling. *)
Lemma rekey_dump (songs : dict) :
  ids_are_keys songs = true -> NoDup (map fst songs) ->
  exists c, rekey songs [] = Some c /\ dumped_songs c = songs /\ dump_fmt c = 0.
Proof.
  intros H Hn. destruct (rekey_ids songs [] H eq_refl) as [c [Hc1 [_ Hc3]]].
  exists c. unfold dumped_songs, dump_fmt. rewrite Hc3. simpl.
  rewrite !(dset_all_nil songs Hn). rewrite (str_nodup_NoDup _ Hn).
  split; [exact Hc1 | split; reflexivity].
Qed.

(* ================================================================== *)
(** ** Catalog store *)

Lemma normalize_entry_stable (key : string) (sd : pyval) (w : world) :
  record_normalized key sd = true -> normalize_entry key sd w = (w, Ok (key, sd, false)).
Proof.
  destruct sd as [| | | | |d]; simpl; try discriminate.
  destruct (dget d "id") as [[| | |s| |]|] eqn:Ei; try discriminate.
  intros H. apply andb_prop in H as [H Hc]. apply andb_prop in H as [H Ha].
  apply andb_prop in H as [Hl Hk]. apply String.eqb_eq in Hk; subst s.
  unfold normalize_entry, dget_or. rewrite Ei. rewrite Hl.
  unfold bind, ret. simpl. rewrite String.eqb_refl.
  unfold dmem in Ha. destruct (dget d "audioSrc") eqn:Eas; [|discriminate].
  unfold cover_rooted in Hc.
  destruct (dget d "coverSrc") as [c|] eqn:Ec; [|reflexivity].
  destruct (truthy c); [|reflexivity].
  destruct c; try discriminate. rewrite Hc. reflexivity.
Qed.

Lemma normalize_all_stable (items acc : dict) (b : bool) (w : world) :
  songs_normalized items = true ->
  normalize_all items acc b w = (w, Ok (dset_all acc items, b)).
Proof.
  revert acc b. induction items as [|[k sd] r IH]; intros acc b H; simpl; [reflexivity|].
  simpl in H. apply andb_prop in H as [H1 H2].
  unfold bind. rewrite (normalize_entry_stable k sd w H1).
  rewrite orb_false_r. apply IH. exact H2.
Qed.

Lemma load_normalized (w : world) (f : nat) (d songs : dict) :
  w_library w = LibPresent (JsonText f (PDict d)) ->
  dget d "songs" = Some (PDict songs) -> songs_normalized songs = true ->
  load_library w = (w, Ok (PDict (dset d "songs" (PDict (dset_all [] songs))))).
Proof.
  intros Hl Hs Hn. unfold load_library. rewrite Hl, Hs. rewrite Hs.
  unfold bind. rewrite (normalize_all_stable songs [] false w Hn). reflexivity.
Qed.

Lemma load_stable (w : world) :
  lib_stable (w_library w) = true -> exists lib, load_library w = (w, Ok lib).
Proof.
  intros H.
  destruct (w_library w) as [| |[| |f v]] eqn:El; simpl in H; try discriminate;
    try (eexists; unfold load_library; rewrite El; reflexivity).
  unfold catalog_normalized in H. destruct v as [| | | | |d]; try discriminate.
  destruct (dget d "songs") as [[| | | | |songs]|] eqn:Es; try discriminate.
  eexists. apply (load_normalized w f d songs); assumption.
Qed.

Lemma ids_normalized (songs : dict) :
  songs_normalized songs = true -> ids_are_keys songs = true.
Proof.
  induction songs as [|[k sd] r IH]; intros H; [reflexivity|].
  simpl in H. apply andb_prop in H as [H1 H2]. simpl. rewrite (IH H2), andb_true_r.
  destruct sd as [| | | | |d]; try discriminate. simpl in H1.
  destruct (dget d "id") as [[| | |s| |]|]; try discriminate.
  apply andb_prop in H1 as [H1 _]. apply andb_prop in H1 as [H1 _].
  apply andb_prop in H1 as [_ Hk]. exact Hk.
Qed.

(** C2 (code bug): a catalog file holding the JSON array [[]] makes
    [load_library] raise [TypeError] ([data["songs"] = {}] on a list), which
    its [except (json.JSONDecodeError, IOError)] does not catch; the DELETE
    endpoint then answers [500]. *)
Lemma C2_load_raises_on_json_list :
  let w := set_library w_empty (LibPresent (JsonText 0 (PList []))) in
  load_library w = (w, Raise TypeError) /\
  delete_song_view "0f3c2a9e-7b41-4d2a-9e6b-0" w = (w, Resp 500 "Internal Server Error").
Proof. split; reflexivity. Qed.

(** The same for a top-level JSON number and for a song entry that is not an
    object. *)
Lemma load_raises_on_number_and_bad_entry :
  load_library (set_library w_empty (LibPresent (JsonText 0 (PInt 5)))) =
    (set_library w_empty (LibPresent (JsonText 0 (PInt 5))), Raise TypeError) /\
  snd (load_library (set_library w_empty
         (LibPresent (JsonText 0 (PDict [("songs", PDict [("k", PInt 1)])]))))) =
    Raise AttributeError.
Proof. split; reflexivity. Qed.

(** C4 (amended): when [load_library] does not rewrite the catalog file
    (absent, unreadable, not JSON, or already normalised), deleting an ID
    absent from the loaded catalog answers [404] and changes nothing: the
    catalog file and the disk are as before. *)
Theorem C4_delete_unknown_unchanged (w : world) (song_id : string)
    (Hst : lib_stable (w_library w) = true)
    (Hid : dget (loaded_songs w) song_id = None) :
  delete_song_view song_id w = (w, Resp 404 "Song not found").
Proof.
  destruct (load_stable w Hst) as [lib Hl].
  unfold loaded_songs in Hid. rewrite Hl in Hid.
  unfold delete_song_view, flask, delete_song, bind. rewrite Hl. rewrite Hid. reflexivity.
Qed.

Definition w_normalized_lib : world :=
  set_library w_sample
    (LibPresent (JsonText 3 (PDict [("songs", PDict
       [("0123456789ab", PDict [("id", PStr "0123456789ab"); ("filename", PStr "a.mp3");
                                 ("audioSrc", PStr "/uploads/a.mp3");
                                 ("coverSrc", PStr "/covers/x.jpg")])])]))).

Lemma C4_delete_unknown_unchanged_witness :
  (lib_stable (w_library w_normalized_lib) = true /\
   dget (loaded_songs w_normalized_lib) "missing" = None) /\
  delete_song_view "missing" w_normalized_lib = (w_normalized_lib, Resp 404 "Song not found").
Proof.
  split.
  - split; reflexivity.
  - apply C4_delete_unknown_unchanged; reflexivity.
Defined.

(** C4 (as stated, refuted): for a catalog file whose record lacks
    [audioSrc], deleting an unknown ID answers [404] but the load has
    rewritten the file. *)
Lemma C4_unknown_delete_rewrites_file :
  let w := set_library w_empty (LibPresent (JsonText 1 (PDict [("songs", PDict
             [("abcdefghijk", PDict [("id", PStr "abcdefghijk"); ("filename", PStr "a.mp3")])])]))) in
  status (snd (delete_song_view "zz" w)) = 404%Z /\
  w_library (fst (delete_song_view "zz" w)) <> w_library w.
Proof. split; [reflexivity | vm_compute; discriminate]. Qed.

(** C9: loading an already normalised catalog file does not write it (the
    world, hence the file, is unchanged) and does not fail. *)
Theorem C9_load_normalized_no_rewrite (w : world) (f : nat) (v : pyval)
    (Hl : w_library w = LibPresent (JsonText f v))
    (Hn : catalog_normalized v = true) :
  exists lib, load_library w = (w, Ok lib).
Proof.
  apply load_stable. rewrite Hl. exact Hn.
Qed.

Lemma C9_load_normalized_no_rewrite_witness :
  (exists f v, w_library w_normalized_lib = LibPresent (JsonText f v) /\ catalog_normalized v = true) /\
  exists lib, load_library w_normalized_lib = (w_normalized_lib, Ok lib).
Proof.
  split.
  - eexists; eexists; split; reflexivity.
  - eapply (C9_load_normalized_no_rewrite w_normalized_lib 3); reflexivity.
Defined.

(** C5 (amended): a catalog in normalised form (records stored under their
    own [id] of at least ten characters, with [audioSrc] and a rooted or
    absent [coverSrc]) whose save succeeds comes back from the next load
    unchanged, with the same records under the same IDs. *)
Theorem C5_save_load_roundtrip (w : world) (lib : pyval)
    (Hn : catalog_normalized lib = true)
    (Hnd : NoDup (map fst (songs_of lib)))
    (Hw : w_lib_writable w = true) :
  save_then_load lib w = (set_library w (LibPresent (JsonText 0 lib)), Ok lib).
Proof.
  unfold catalog_normalized in Hn.
  destruct lib as [| | | | |d]; try discriminate.
  destruct (dget d "songs") as [[| | | | |songs]|] eqn:Es; try discriminate.
  unfold songs_of in Hnd. rewrite Es in Hnd.
  unfold save_then_load, save_library, bind. rewrite Es.
  destruct (rekey_dump songs (ids_normalized songs Hn) Hnd) as [c [Hc [Hd Hf]]].
  rewrite Hc, Hd, Hf. rewrite (dset_same d "songs" (PDict songs) Es).
  unfold write_library. rewrite Hw. simpl.
  rewrite (load_normalized (set_library w (LibPresent (JsonText 0 (PDict d)))) 0 d songs
             eq_refl Es Hn).
  rewrite (dset_all_nil songs Hnd). rewrite (dset_same d "songs" (PDict songs) Es).
  reflexivity.
Qed.

Definition catalog_sample : pyval :=
  PDict [("songs", PDict
    [("0123456789ab", PDict [("id", PStr "0123456789ab"); ("filename", PStr "a.mp3");
                              ("audioSrc", PStr "/uploads/a.mp3"); ("coverSrc", PNone)])])].

Lemma C5_save_load_roundtrip_witness :
  (catalog_normalized catalog_sample = true /\
   NoDup (map fst (songs_of catalog_sample)) /\ w_lib_writable w_empty = true) /\
  save_then_load catalog_sample w_empty =
    (set_library w_empty (LibPresent (JsonText 0 catalog_sample)), Ok catalog_sample).
Proof.
  split.
  - split; [reflexivity | split; [repeat constructor; simpl; tauto | reflexivity]].
  - apply C5_save_load_roundtrip;
      [reflexivity | repeat constructor; simpl; tauto | reflexivity].
Defined.

(** C5 (as stated, refuted): a record whose [id] is too short is saved, and
    the next load stores it under a fresh ID; the ID ["short"] is gone. *)
Lemma C5_short_id_not_preserved :
  let lib := PDict [("songs", PDict [("short", PDict [("id", PStr "short")])])] in
  match save_then_load lib w_empty with
  | (_, Ok lib') => dget (songs_of lib') "short" = None /\ songs_of lib' <> []
  | (_, Raise _) => False
  end.
Proof. vm_compute. split; [reflexivity | discriminate]. Qed.

(* ================================================================== *)
(** ** Metadata resolver *)

(** C3 (amended): the embedded-cover scan settles on the first picture of an
    allowed type, skipping pictures of other types and continuing past them;
    it writes that picture as [<song-id>.<ext>] and stops there, also when
    the write fails. *)
Theorem C3_scan_first_allowed (song_id : string) (tags : list (string * frame)) (w : world)
    (Hpic : apic_names_are_pictures tags = true) :
  scan_apic song_id tags w = first_allowed_cover song_id tags w.
Proof.
  induction tags as [|[tag_name fr] r IH]; [reflexivity|].
  simpl in Hpic. apply andb_prop in Hpic as [Hfr Hr].
  specialize (IH Hr).
  unfold first_allowed_cover in *. simpl.
  unfold apic_allowed at 1. simpl.
  destruct (startswith tag_name "APIC") eqn:Ea; simpl in *.
  - destruct fr as [mime data|]; [|discriminate].
    match goal with |- context [if ?c then _ else _] => destruct c end;
      [reflexivity | exact IH].
  - exact IH.
Qed.

Lemma C3_scan_first_allowed_witness :
  let tags := [("APIC:a", APIC "image/bmp" "B"); ("TIT2", OtherFrame); ("APIC:b", APIC "image/png" "P")] in
  apic_names_are_pictures tags = true /\
  scan_apic "0123456789ab" tags w_sample = first_allowed_cover "0123456789ab" tags w_sample.
Proof.
  split; [reflexivity | apply C3_scan_first_allowed; reflexivity].
Defined.

(** C3 (as stated, refuted): with a BMP picture before a PNG one and no
    uploaded cover, the resolver goes past the BMP and takes the PNG. *)
Lemma C3_scan_continues_past_disallowed :
  let w := mkworld ["app"]
             [("/app/uploads/a.mp3",
               Audio EasyNoHeader (FullOk (Some [("APIC:a", APIC "image/bmp" "B");
                                                 ("APIC:b", APIC "image/png" "P")])))]
             [] [] LibAbsent true 0 in
  match get_song_metadata true "a.mp3" "0123456789ab" None None w with
  | (w', Ok m) => m_coverSrc m = Some "/covers/0123456789ab.png" /\
                  fs_lookup (w_files w') "/app/uploads/covers/0123456789ab.png" = Some (Image "P")
  | (_, Raise _) => False
  end.
Proof. vm_compute. split; reflexivity. Qed.

Lemma with_artist_srcs (m : metadata) (a : string) :
  m_audioSrc (with_artist m a) = m_audioSrc m /\ m_coverSrc (with_artist m a) = m_coverSrc m.
Proof. split; reflexivity. Qed.

Lemma easy_step_srcs (tags : list (string * list string)) (manual : option string) (m : metadata) :
  m_audioSrc (easy_step tags manual m) = m_audioSrc m /\
  m_coverSrc (easy_step tags manual m) = m_coverSrc m.
Proof.
  unfold easy_step.
  destruct (manual_given manual);
  repeat match goal with
         | |- context [match ?e with _ => _ end] => destruct e
         end; split; reflexivity.
Qed.

Lemma read_basic_tags_srcs (b : blob) (manual : option string) (m : metadata) :
  m_audioSrc (read_basic_tags b manual m) = m_audioSrc m /\
  m_coverSrc (read_basic_tags b manual m) = m_coverSrc m.
Proof.
  unfold read_basic_tags. destruct (easy_of b); [apply easy_step_srcs | |];
    destruct (manual_given manual); split; reflexivity.
Qed.

Lemma scan_apic_form (song_id : string) (tags : list (string * frame)) (w : world) :
  match scan_apic song_id tags w with
  | (_, Ok c) => cover_form song_id c
  | (_, Raise _) => True
  end.
Proof.
  revert w. induction tags as [|[tag_name fr] r IH]; intros w; cbn [scan_apic].
  - left; reflexivity.
  - destruct (startswith tag_name "APIC"); [|apply IH].
    destruct fr as [mime data|]; [|exact I].
    destruct (str_in (mime_ext mime) ALLOWED_COVER_EXTENSIONS) eqn:Ex; [|apply IH].
    unfold bind, get_world, write_file, ret.
    destruct (str_in _ (w_readonly w)); cbn beta iota.
    + left; reflexivity.
    + right. exists (mime_ext mime). split; [exact Ex | reflexivity].
Qed.

Lemma embedded_cover_form (song_id : string) (b : blob) (w : world) :
  match embedded_cover song_id b w with
  | (_, Ok c) => cover_form song_id c
  | (_, Raise _) => False
  end.
Proof.
  unfold embedded_cover, catch.
  destruct (full_of b) as [[[|t r]|]|]; cbn beta iota; try (left; reflexivity).
  match goal with
  | |- context [scan_apic ?a ?b ?c] =>
      pose proof (scan_apic_form a b c) as H; destruct (scan_apic a b c) as [w' [c'|e]]
  end; cbn beta iota; [exact H | left; reflexivity].
Qed.

Lemma write_file_cwd (rp : string) (b : blob) (w : world) :
  w_cwd (fst (write_file rp b w)) = w_cwd w.
Proof. unfold write_file. destruct (str_in rp (w_readonly w)); reflexivity. Qed.

Lemma fs_lookup_remove_neq (f : list (string * blob)) (p q : string) :
  p <> q -> fs_lookup (fs_remove f p) q = fs_lookup f q.
Proof.
  intros Hne. induction f as [|[r b] f IH]; simpl; [reflexivity|].
  destruct (String.eqb p r) eqn:E.
  - apply String.eqb_eq in E; subst r.
    destruct (String.eqb q p) eqn:E'; [apply String.eqb_eq in E'; congruence | exact IH].
  - simpl. destruct (String.eqb q r); [reflexivity | exact IH].
Qed.

Lemma write_file_lookup_neq (rp q : string) (b : blob) (w : world) :
  rp <> q -> fs_lookup (w_files (fst (write_file rp b w))) q = fs_lookup (w_files w) q.
Proof.
  intros Hne. unfold write_file. destruct (str_in rp (w_readonly w)); [reflexivity|].
  simpl. destruct (String.eqb q rp) eqn:E; [apply String.eqb_eq in E; congruence|].
  apply fs_lookup_remove_neq. exact Hne.
Qed.

Lemma save_uploaded_cover_form (song_id : string) (m0 : metadata) (cf : option upload) (w : world) :
  match save_uploaded_cover song_id m0 cf w with
  | (w1, Ok (m1, _)) =>
      w_cwd w1 = w_cwd w /\ m_audioSrc m1 = m_audioSrc m0 /\
      (m_coverSrc m1 = m_coverSrc m0 \/
       exists ext, str_in ext ALLOWED_COVER_EXTENSIONS = true /\
                   m_coverSrc m1 = Some ("/" ++ COVERS_FOLDER_NAME ++ "/" ++ song_id ++ "." ++ ext))
  | (_, Raise _) => False
  end.
Proof.
  unfold save_uploaded_cover.
  destruct cf as [cf|]; [|simpl; auto].
  destruct (negb (String.eqb (uf_filename cf) "") && allowed_cover_file (uf_filename cf)) eqn:Ea;
    [|simpl; auto].
  apply andb_prop in Ea as [_ Ea]. unfold allowed_cover_file in Ea.
  apply andb_prop in Ea as [_ Ea].
  unfold bind, get_world, write_file, ret.
  destruct (str_in _ (w_readonly w)); cbn beta iota; [auto|].
  split; [reflexivity | split; [reflexivity|]].
  right. eexists. split; [exact Ea | reflexivity].
Qed.



Lemma get_song_metadata_srcs (mutagen_available : bool) (fn song_id : string)
    (manual : option string) (cf : option upload) (w : world) :
  match get_song_metadata mutagen_available fn song_id manual cf w with
  | (_, Ok m) => m_audioSrc m = "/uploads/" ++ fn /\ cover_form song_id (m_coverSrc m)
  | (_, Raise _) => False
  end.
Proof.
  unfold get_song_metadata. unfold bind at 1.
  match goal with
  | |- context [save_uploaded_cover ?a ?b ?c w] =>
      pose proof (save_uploaded_cover_form a b c w) as H1;
      destruct (save_uploaded_cover a b c w) as [w1 [[m1 cs]|e]]; [|contradiction]
  end.
  destruct H1 as [_ [Ha Hc]]. simpl in Ha, Hc.
  assert (Hc' : cover_form song_id (m_coverSrc m1)).
  { destruct Hc as [Hc|Hc]; [left; exact Hc | right; exact Hc]. }
  clear Hc. cbn beta iota. unfold bind, get_world, ret.
  destruct mutagen_available;
    [destruct (fs_lookup (w_files w1) (resolve_str (w_cwd w1) (pjoin (Path UPLOAD_FOLDER) (Path fn)))) as [b|] |].
  - destruct (read_basic_tags_srcs b manual m1) as [Rb Rc].
    destruct cs; cbn beta iota.
    + simpl. rewrite Rb, Rc. split; assumption.
    + match goal with
      | |- context [embedded_cover ?a ?b ?c] =>
          pose proof (embedded_cover_form a b c) as He;
          destruct (embedded_cover a b c) as [w2 [[c'|]|e]]; [| |contradiction]
      end; simpl.
      * rewrite Rb. split; [assumption | exact He].
      * rewrite Rb, Rc. split; assumption.
  - simpl. split; assumption.
  - simpl. split; assumption.
Qed.


Lemma save_uploaded_cover_keeps_mp3 (fn song_id : string) (m0 : metadata)
    (cf : option upload) (w : world)
    (Hsep : forall ext, str_in ext ALLOWED_COVER_EXTENSIONS = true ->
                        cover_out w song_id ext <> mp3_target w fn) :
  match save_uploaded_cover song_id m0 cf w with
  | (w1, Ok (m1, _)) =>
      w_cwd w1 = w_cwd w /\ m_artist m1 = m_artist m0 /\
      fs_lookup (w_files w1) (mp3_target w fn) = fs_lookup (w_files w) (mp3_target w fn)
  | (_, Raise _) => False
  end.
Proof.
  unfold save_uploaded_cover.
  destruct cf as [cf|]; [|simpl; auto].
  destruct (negb (String.eqb (uf_filename cf) "") && allowed_cover_file (uf_filename cf)) eqn:Ea;
    [|simpl; auto].
  apply andb_prop in Ea as [_ Ea]. unfold allowed_cover_file in Ea.
  apply andb_prop in Ea as [_ Ea].
  specialize (Hsep _ Ea). unfold cover_out in Hsep.
  unfold bind, get_world, ret.
  pose proof (write_file_lookup_neq _ (mp3_target w fn) (uf_blob cf) w Hsep) as Hl.
  unfold write_file in *.
  destruct (str_in _ (w_readonly w)); simpl in *; auto.
Qed.

Lemma manual_given_nonempty (manual : option string) (a : string) :
  manual_given manual = Some a -> String.eqb a "" = false.
Proof.
  unfold manual_given. destruct manual as [s|]; [|discriminate].
  destruct (String.eqb s "") eqn:E; [discriminate|]. intros H; injection H as <-. exact E.
Qed.

Lemma final_artist_manual (a : string) (manual : option string) :
  manual_given manual = Some a -> final_artist a manual = a.
Proof.
  intros Hm. unfold final_artist. rewrite (manual_given_nonempty _ _ Hm), Hm. simpl.
  destruct (String.eqb a "Unknown Artist"); reflexivity.
Qed.

Lemma easy_step_artist_manual (tags : list (string * list string)) (manual : option string)
    (m : metadata) (a : string) :
  manual_given manual = Some a -> m_artist (easy_step tags manual m) = a.
Proof.
  intros Hm. unfold easy_step. rewrite Hm.
  destruct (easy_get0 tags "title" (m_title m)); [|reflexivity]. simpl.
  destruct (easy_get0 tags "album" _); [|reflexivity]. simpl.
  destruct (easy_get0 tags "genre" _); reflexivity.
Qed.

Lemma read_basic_tags_artist (b : blob) (manual : option string) (m : metadata) :
  m_artist m = "Unknown Artist" ->
  final_artist (m_artist (read_basic_tags b manual m)) manual = resolved_artist (easy_of b) manual.
Proof.
  intros Hu. unfold resolved_artist.
  destruct (manual_given manual) as [a|] eqn:Em.
  - apply final_artist_manual in Em as Ef.
    unfold read_basic_tags. destruct (easy_of b) as [tags| |].
    + rewrite (easy_step_artist_manual tags manual m a Em). exact Ef.
    + rewrite Em. exact Ef.
    + rewrite Em. exact Ef.
  - unfold read_basic_tags, tag_artist, final_artist. rewrite Em.
    destruct (easy_of b) as [tags| |]; [| rewrite Hu; reflexivity | rewrite Hu; reflexivity].
    unfold easy_step. rewrite Em.
    assert (Ht : forall d1 d2, easy_get0 tags "title" d1 = None <-> easy_get0 tags "title" d2 = None).
    { intros d1 d2. unfold easy_get0.
      destruct ((fix lk (l : list (string * list string)) : option (list string) :=
                   match l with
                   | [] => None
                   | (k, v) :: r => if String.eqb k "title" then Some v else lk r
                   end) tags) as [[|]|]; split; congruence. }
    destruct (easy_get0 tags "title" (m_title m)) as [t|] eqn:Et.
    + destruct (easy_get0 tags "title" "") eqn:Et'; [|apply (Ht (m_title m) "") in Et'; congruence].
      simpl. rewrite Hu.
      destruct (easy_get0 tags "artist" "Unknown Artist") as [a|] eqn:Ea.
      * simpl. destruct (easy_get0 tags "album" _); [simpl; destruct (easy_get0 tags "genre" _)|];
          simpl; destruct (String.eqb a "") eqn:E1; simpl; try reflexivity;
          destruct (String.eqb a "Unknown Artist") eqn:E2; try reflexivity;
          apply String.eqb_eq in E2; symmetry; exact E2.
      * simpl. rewrite Hu. reflexivity.
    + destruct (easy_get0 tags "title" "") eqn:Et'; [apply (Ht (m_title m) "") in Et; congruence|].
      rewrite Hu. reflexivity.
Qed.

(** C7 (amended): with tag reading available and the mp3 file present, the
    artist is the manual artist when a non-empty one is supplied, else the
    tags' first [artist] value when the tags are read, the title lookup
    before it succeeds and the value is not empty, else ["Unknown Artist"]. *)
Theorem C7_artist_resolution (fn song_id : string) (manual : option string)
    (cf : option upload) (w : world) (b : blob)
    (Hb : fs_lookup (w_files w) (mp3_target w fn) = Some b)
    (Hsep : forall ext, str_in ext ALLOWED_COVER_EXTENSIONS = true ->
                        cover_out w song_id ext <> mp3_target w fn) :
  match get_song_metadata true fn song_id manual cf w with
  | (_, Ok m) => m_artist m = resolved_artist (easy_of b) manual
  | (_, Raise _) => False
  end.
Proof.
  unfold get_song_metadata. unfold bind at 1.
  match goal with
  | |- context [save_uploaded_cover ?a ?m0 ?c w] =>
      pose proof (save_uploaded_cover_keeps_mp3 fn a m0 c w Hsep) as H1;
      destruct (save_uploaded_cover a m0 c w) as [w1 [[m1 cs]|e]]; [|contradiction]
  end.
  destruct H1 as [Hcwd [Hart Hl]]. simpl in Hart.
  cbn beta iota. unfold bind, get_world, ret.
  unfold mp3_target in Hl, Hb. rewrite Hcwd, Hl, Hb.
  destruct cs; cbn beta iota.
  - apply read_basic_tags_artist. exact Hart.
  - match goal with
    | |- context [embedded_cover ?a ?b ?c] =>
        pose proof (embedded_cover_form a b c) as He;
        destruct (embedded_cover a b c) as [w2 [[c'|]|e]]; [| |contradiction]
    end; simpl; apply read_basic_tags_artist; exact Hart.
Qed.

Definition w_tagged : world :=
  mkworld ["app"]
    [("/app/uploads/a.mp3",
      Audio (EasyOk [("title", ["Song"]); ("artist", ["Tag Artist"])]) (FullOk None))]
    [] [] LibAbsent true 0.

Lemma C7_artist_resolution_witness :
  (fs_lookup (w_files w_tagged) (mp3_target w_tagged "a.mp3") =
     Some (Audio (EasyOk [("title", ["Song"]); ("artist", ["Tag Artist"])]) (FullOk None)) /\
   (forall ext, str_in ext ALLOWED_COVER_EXTENSIONS = true ->
                cover_out w_tagged "0123456789ab" ext <> mp3_target w_tagged "a.mp3")) /\
  match get_song_metadata true "a.mp3" "0123456789ab" (Some "Test Artist") None w_tagged with
  | (_, Ok m) => m_artist m = resolved_artist (EasyOk [("title", ["Song"]); ("artist", ["Tag Artist"])])
                                              (Some "Test Artist")
  | (_, Raise _) => False
  end.
Proof.
  assert (Hsep : forall ext, str_in ext ALLOWED_COVER_EXTENSIONS = true ->
                 cover_out w_tagged "0123456789ab" ext <> mp3_target w_tagged "a.mp3").
  { intros ext Hx. unfold str_in, ALLOWED_COVER_EXTENSIONS in Hx. simpl in Hx.
    destruct (String.eqb ext "png") eqn:E1;
      [apply String.eqb_eq in E1; subst; vm_compute; intros H; discriminate H|].
    destruct (String.eqb ext "jpg") eqn:E2;
      [apply String.eqb_eq in E2; subst; vm_compute; intros H; discriminate H|].
    destruct (String.eqb ext "jpeg") eqn:E3;
      [apply String.eqb_eq in E3; subst; vm_compute; intros H; discriminate H|].
    destruct (String.eqb ext "gif") eqn:E4;
      [apply String.eqb_eq in E4; subst; vm_compute; intros H; discriminate H|].
    discriminate Hx. }
  split.
  - split; [reflexivity | exact Hsep].
  - apply (C7_artist_resolution "a.mp3" "0123456789ab" (Some "Test Artist") None w_tagged
             (Audio (EasyOk [("title", ["Song"]); ("artist", ["Tag Artist"])]) (FullOk None)));
      [reflexivity | exact Hsep].
Defined.

(** C7 (as stated, refuted): a tag artist that is the empty string is read
    from the tags, yet the final pass replaces it by ["Unknown Artist"]. *)
Lemma C7_empty_tag_artist_replaced :
  let w := mkworld ["app"]
             [("/app/uploads/a.mp3", Audio (EasyOk [("artist", [""])]) (FullOk None))]
             [] [] LibAbsent true 0 in
  match get_song_metadata true "a.mp3" "0123456789ab" None None w with
  | (_, Ok m) => m_artist m = "Unknown Artist"
  | (_, Raise _) => False
  end.
Proof. vm_compute. reflexivity. Qed.

(* ================================================================== *)
(** ** Catalog, resolver, upload and listing: further properties *)

Lemma string_length_app (s t : string) : String.length (s ++ t) = String.length s + String.length t.
Proof. induction s; simpl; auto. Qed.

Lemma uuid_str_long (n : nat) : Nat.leb 10 (String.length (uuid_str n)) = true.
Proof. unfold uuid_str. rewrite string_length_app. apply Nat.leb_le. simpl. lia. Qed.

Lemma set_uuid_same (w : world) : set_uuid w (w_uuid w) = w.
Proof. destruct w; reflexivity. Qed.

Lemma set_uuid_twice (w : world) (n m : nat) : set_uuid (set_uuid w n) m = set_uuid w m.
Proof. destruct w; reflexivity. Qed.

Lemma normalize_entry_world (key : string) (sd : pyval) (w : world) :
  match normalize_entry key sd w with
  | (w', Ok (_, _, ns)) => (ns = false -> w' = w) /\ exists n, w' = set_uuid w n
  | (w', Raise _) => exists n, w' = set_uuid w n
  end.
Proof.
  destruct sd as [| | | | |d]; simpl; try (exists (w_uuid w); symmetry; apply set_uuid_same).
  unfold normalize_entry, dget_or, bind, ret, fresh_uuid, raise.
  repeat match goal with
         | |- context [match ?e with _ => _ end] =>
             lazymatch e with
             | context [match _ with _ => _ end] => fail
             | _ => let E := fresh "E" in destruct e eqn:E
             end
         | |- context [if ?c then _ else _] =>
             lazymatch c with
             | context [if _ then _ else _] => fail
             | _ => let E := fresh "E" in destruct c eqn:E
             end
         end; cbn beta iota zeta in *;
    try (split; [intros; first [reflexivity | discriminate] | ]);
    try (eexists; reflexivity); try (exists (w_uuid w); symmetry; apply set_uuid_same).
Qed.

Ltac simpl_dget :=
  repeat match goal with
         | |- context [dget (dset ?d ?k ?v) ?k] => rewrite (dget_dset_eq d k v)
         | |- context [dget (dset ?d ?k ?v) ?k'] => rewrite (dget_dset_neq d k k' v) by discriminate
         | H : context [dget (dset ?d ?k ?v) ?k] |- _ => rewrite (dget_dset_eq d k v) in H
         | H : context [dget (dset ?d ?k ?v) ?k'] |- _ =>
             rewrite (dget_dset_neq d k k' v) in H by discriminate
         end.

Ltac brute_cases :=
  repeat match goal with
         | |- context [match ?e with _ => _ end] =>
             lazymatch e with
             | context [match _ with _ => _ end] => fail
             | _ => let E := fresh "E" in destruct e eqn:E
             end
         | |- context [if ?c then _ else _] =>
             lazymatch c with
             | context [if _ then _ else _] => fail
             | _ => let E := fresh "E" in destruct c eqn:E
             end
         end.

Lemma normalize_entry_fixed (key : string) (sd : pyval) (w : world) :
  match normalize_entry key sd w with
  | (_, Ok (sid, v, _)) => record_fixed sid v = true
  | (_, Raise _) => True
  end.
Proof.
  destruct sd as [| | | | |d]; simpl; try exact I.
  unfold normalize_entry, dget_or, bind, ret, fresh_uuid, raise.
  brute_cases; cbn beta iota zeta in *; try exact I;
    unfold record_fixed, dmem; simpl_dget;
    repeat match goal with
           | H : ?x = Some _ |- context [?x] => rewrite H
           end;
    simpl in *;
    repeat match goal with
           | H : (_ =? _)%string = true |- _ => apply String.eqb_eq in H; subst
           end;
    rewrite ?String.eqb_refl, ?uuid_str_long, ?E, ?Bool.andb_true_r; simpl;
    repeat match goal with
           | H : ?x = _ |- context [?x] => rewrite H
           end; simpl; try reflexivity.
Qed.

Lemma dset_keys (d : dict) (k x : string) (v : pyval) :
  In x (map fst (dset d k v)) <-> x = k \/ In x (map fst d).
Proof.
  induction d as [|[j u] r IH]; simpl.
  - intuition congruence.
  - destruct (String.eqb k j) eqn:E; simpl.
    + apply String.eqb_eq in E; subst j. intuition congruence.
    + rewrite IH. intuition congruence.
Qed.

Lemma dset_nodup (d : dict) (k : string) (v : pyval) :
  NoDup (map fst d) -> NoDup (map fst (dset d k v)).
Proof.
  induction d as [|[j u] r IH]; simpl; intros H.
  - constructor; [simpl; tauto | constructor].
  - inversion H as [|? ? Hn Hr]; subst.
    destruct (String.eqb k j) eqn:E; simpl.
    + constructor; assumption.
    + constructor; [|apply IH; exact Hr].
      rewrite dset_keys. intros [Hk|Hk]; [|contradiction].
      subst. rewrite String.eqb_refl in E. discriminate.
Qed.

Lemma dset_fixed (d : dict) (k : string) (v : pyval) :
  songs_fixed d = true -> record_fixed k v = true -> songs_fixed (dset d k v) = true.
Proof.
  induction d as [|[j u] r IH]; simpl; intros Hd Hv.
  - rewrite Hv. reflexivity.
  - apply andb_prop in Hd as [Hj Hr].
    destruct (String.eqb k j) eqn:E; simpl.
    + apply String.eqb_eq in E; subst j. rewrite Hv, Hr. reflexivity.
    + rewrite Hj. apply IH; assumption.
Qed.

Lemma normalize_all_fixed (items acc : dict) (b : bool) (w : world) :
  songs_fixed acc = true -> NoDup (map fst acc) ->
  match normalize_all items acc b w with
  | (_, Ok (upd, _)) => songs_fixed upd = true /\ NoDup (map fst upd)
  | (_, Raise _) => True
  end.
Proof.
  revert acc b w. induction items as [|[key sd] r IH]; intros acc b w Hf Hn; simpl.
  - split; assumption.
  - unfold bind. pose proof (normalize_entry_fixed key sd w) as H.
    destruct (normalize_entry key sd w) as [w1 [[[sid v] ns]|e]]; [|exact I].
    apply IH; [apply dset_fixed; assumption | apply dset_nodup; exact Hn].
Qed.

Lemma normalize_all_world (items acc : dict) (b : bool) (w : world) :
  match normalize_all items acc b w with
  | (w', Ok (_, b')) => (b = true -> b' = true) /\ (b' = false -> w' = w) /\
                        exists n, w' = set_uuid w n
  | (w', Raise _) => exists n, w' = set_uuid w n
  end.
Proof.
  revert acc b w. induction items as [|[key sd] r IH]; intros acc b w; simpl.
  - split; [auto | split; [auto | exists (w_uuid w); symmetry; apply set_uuid_same]].
  - unfold bind. pose proof (normalize_entry_world key sd w) as H.
    destruct (normalize_entry key sd w) as [w1 [[[sid v] ns]|e]].
    + destruct H as [H0 [n Hn]].
      specialize (IH (dset acc sid v) (b || ns) w1).
      destruct (normalize_all r (dset acc sid v) (b || ns) w1) as [w2 [[upd b']|e]].
      * destruct IH as [I1 [I2 [m Hm]]]. subst w1.
        split; [intros ->; apply I1; reflexivity|].
        split; [|exists m; rewrite Hm; apply set_uuid_twice].
        intros Hb'. specialize (I2 Hb'). subst w2.
        destruct (b || ns) eqn:Eb; [specialize (I1 eq_refl); congruence|].
        apply orb_false_elim in Eb as [_ Ens]. apply H0. exact Ens.
      * destruct IH as [m Hm]. subst. exists m. apply set_uuid_twice.
    + exact H.
Qed.

Lemma normalize_entry_stable_fixed (key : string) (sd : pyval) (w : world) :
  record_fixed key sd = true -> normalize_entry key sd w = (w, Ok (key, sd, false)).
Proof.
  destruct sd as [| | | | |d]; simpl; try discriminate.
  destruct (dget d "id") as [[| | |s| |]|] eqn:Ei; try discriminate.
  intros H. apply andb_prop in H as [H Hc]. apply andb_prop in H as [H Ha].
  apply andb_prop in H as [Hk Hl]. apply String.eqb_eq in Hk; subst s.
  unfold normalize_entry, dget_or. rewrite Ei. rewrite Hl.
  unfold bind, ret. simpl. rewrite String.eqb_refl.
  unfold dmem in Ha.
  destruct (dget d "audioSrc") eqn:Eas;
    [| destruct (dget d "filename") eqn:Efn; [simpl in Ha; discriminate|]];
    (unfold cover_rooted in Hc; destruct (dget d "coverSrc") as [c|] eqn:Ec; [|reflexivity];
     destruct (truthy c); [|reflexivity]; destruct c; try discriminate; rewrite Hc; reflexivity).
Qed.

Lemma normalize_all_stable_fixed (items acc : dict) (b : bool) (w : world) :
  songs_fixed items = true ->
  normalize_all items acc b w = (w, Ok (dset_all acc items, b)).
Proof.
  revert acc b. induction items as [|[k sd] r IH]; intros acc b H; simpl; [reflexivity|].
  simpl in H. apply andb_prop in H as [H1 H2].
  unfold bind. rewrite (normalize_entry_stable_fixed k sd w H1).
  rewrite orb_false_r. apply IH. exact H2.
Qed.

Lemma ids_fixed (songs : dict) :
  songs_fixed songs = true -> ids_are_keys songs = true.
Proof.
  induction songs as [|[k sd] r IH]; intros H; [reflexivity|].
  simpl in H. apply andb_prop in H as [H1 H2]. simpl. rewrite (IH H2), andb_true_r.
  destruct sd as [| | | | |d]; try discriminate. simpl in H1.
  destruct (dget d "id") as [[| | |s| |]|]; try discriminate.
  apply andb_prop in H1 as [H1 _]. apply andb_prop in H1 as [H1 _].
  apply andb_prop in H1 as [Hk _]. exact Hk.
Qed.

Lemma write_library_eq (f : nat) (v : pyval) (w : world) :
  write_library f v w =
    (if w_lib_writable w then set_library w (LibPresent (JsonText f v)) else w, Ok (w_lib_writable w)).
Proof. unfold write_library. destruct (w_lib_writable w); reflexivity. Qed.

Lemma save_library_fixed (d songs : dict) (w : world) :
  dget d "songs" = Some (PDict songs) -> songs_fixed songs = true -> NoDup (map fst songs) ->
  save_library (PDict d) w =
    (if w_lib_writable w then set_library w (LibPresent (JsonText 0 (PDict d))) else w,
     Ok (PDict d, w_lib_writable w)).
Proof.
  intros Hs Hf Hn. unfold save_library. rewrite Hs.
  destruct (rekey_dump songs (ids_fixed songs Hf) Hn) as [c [Hc [Hd Hf']]].
  rewrite Hc, Hd, Hf', (dset_same d "songs" _ Hs).
  unfold bind, ret. rewrite write_library_eq. reflexivity.
Qed.

Lemma load_fixed_stable (w : world) (f : nat) (d songs : dict) :
  w_library w = LibPresent (JsonText f (PDict d)) ->
  dget d "songs" = Some (PDict songs) -> songs_fixed songs = true -> NoDup (map fst songs) ->
  load_library w = (w, Ok (PDict d)).
Proof.
  intros Hl Hs Hf Hn. unfold load_library. rewrite Hl, Hs. rewrite Hs.
  unfold bind. rewrite (normalize_all_stable_fixed songs [] false w Hf).
  rewrite (dset_all_nil songs Hn), (dset_same d "songs" _ Hs). reflexivity.
Qed.

Lemma empty_library_fixed : catalog_fixed empty_library.
Proof. exists [("songs", PDict [])], []. repeat split; constructor. Qed.

(** The shape of every successful load, and what it changed. *)
Lemma load_library_cases (w : world) :
  match load_library w with
  | (w', Ok lib) =>
      catalog_fixed lib /\
      (w' = w \/
       exists n, w_lib_writable w = true /\
                 w' = set_library (set_uuid w n) (LibPresent (JsonText 0 lib)) \/
       w_lib_writable w = false /\ w' = set_uuid w n)
  | (w', Raise _) => exists n, w' = set_uuid w n
  end.
Proof.
  unfold load_library.
  destruct (w_library w) as [| |[| |f data]] eqn:El;
    try (split; [apply empty_library_fixed | left; reflexivity]).
  - exists (w_uuid w). symmetry. apply set_uuid_same.
  - destruct data as [| | | | |d]; try (exists (w_uuid w); symmetry; apply set_uuid_same).
    set (d1 := match dget d "songs" with Some (PDict _) => d | _ => dset d "songs" (PDict []) end).
    set (songs := match dget d1 "songs" with Some (PDict s) => s | _ => [] end).
    unfold bind.
    pose proof (normalize_all_fixed songs [] false w eq_refl (NoDup_nil _)) as Hf.
    pose proof (normalize_all_world songs [] false w) as Hw.
    destruct (normalize_all songs [] false w) as [w1 [[upd ns]|e]]; [|exact Hw].
    destruct Hf as [Hf Hn]. destruct Hw as [_ [Hw0 Hw]].
    assert (Hc : catalog_fixed (PDict (dset d1 "songs" (PDict upd)))).
    { exists (dset d1 "songs" (PDict upd)), upd. rewrite dget_dset_eq. auto. }
    destruct ns.
    + destruct Hw as [n Hn']; subst w1.
      rewrite (save_library_fixed (dset d1 "songs" (PDict upd)) upd _ (dget_dset_eq _ _ _) Hf Hn).
      unfold ret. simpl. split; [exact Hc|]. right. exists n.
      destruct (w_lib_writable w) eqn:Ew; [left | right]; split; reflexivity.
    + rewrite (Hw0 eq_refl). unfold ret. split; [exact Hc | left; reflexivity].
Qed.

(** X2: when the catalog file is writable, a second load finds the file
    the first load left and returns the same catalog without touching it. *)
Theorem load_library_idempotent (w w1 : world) (lib : pyval)
    (Hl : load_library w = (w1, Ok lib)) (Hw : w_lib_writable w = true) :
  load_library w1 = (w1, Ok lib).
Proof.
  pose proof (load_library_cases w) as Hc. rewrite Hl in Hc.
  destruct Hc as [[d [songs [-> [Hs [Hf Hn]]]]] [->|[n [[_ ->]|[Hw' _]]]]].
  - exact Hl.
  - apply (load_fixed_stable _ 0 d songs); auto.
  - congruence.
Qed.







Lemma save_library_effect (lib : pyval) (w : world) :
  match save_library lib w with
  | (w', Ok (_, true)) => w_lib_writable w = true /\ exists f v, w' = set_library w (LibPresent (JsonText f v))
  | (w', _) => w' = w
  end.
Proof.
  unfold save_library, bind, ret, raise.
  destruct lib as [| | | | |d]; try reflexivity.
  - destruct (has_sub _ _); reflexivity.
  - destruct (existsb _ _); reflexivity.
  - destruct (dget d "songs") as [[| | | | |songs]|]; cbn beta iota;
      repeat match goal with |- context [rekey ?a ?b] => destruct (rekey a b) end;
      try reflexivity.
  all: rewrite write_library_eq; destruct (w_lib_writable w) eqn:Ew; simpl;
    [split; [reflexivity | do 2 eexists; reflexivity] | reflexivity].
Qed.

Lemma set_files_same (w : world) : set_files w (w_files w) = w.
Proof. destruct w; reflexivity. Qed.

Lemma set_files_twice (w : world) (f g : list (string * blob)) :
  set_files (set_files w f) g = set_files w g.
Proof. destruct w; reflexivity. Qed.

Lemma delete_audio_files (fn : pyval) (w : world) :
  exists f, fst (delete_audio fn w) = set_files w f.
Proof.
  unfold delete_audio, bind, get_world, ret, put_world, raise.
  destruct (truthy fn); [|exists (w_files w); symmetry; apply set_files_same].
  destruct fn; try (exists (w_files w); symmetry; apply set_files_same).
  repeat match goal with |- context [if ?c then _ else _] => destruct c end; simpl;
    first [eexists; reflexivity | exists (w_files w); symmetry; apply set_files_same].
Qed.

Lemma delete_cover_files (cs : pyval) (w : world) :
  exists f, fst (delete_cover cs w) = set_files w f.
Proof.
  unfold delete_cover, bind, get_world, ret, put_world, raise.
  destruct (truthy cs); [|exists (w_files w); symmetry; apply set_files_same].
  destruct cs; try (exists (w_files w); symmetry; apply set_files_same).
  repeat match goal with |- context [if ?c then _ else _] => destruct c end; simpl;
    first [eexists; reflexivity | exists (w_files w); symmetry; apply set_files_same].
Qed.

Lemma dget_notin (l : dict) (k : string) : ~ In k (map fst l) -> dget l k = None.
Proof.
  induction l as [|[j u] r IH]; simpl; intros H; [reflexivity|].
  destruct (String.eqb k j) eqn:E; [apply String.eqb_eq in E; subst; tauto|].
  apply IH. tauto.
Qed.

Lemma ddel_keys (l : dict) (k x : string) : In x (map fst (ddel l k)) -> In x (map fst l).
Proof.
  induction l as [|[j u] r IH]; simpl; [tauto|].
  destruct (String.eqb k j); simpl; tauto.
Qed.

Lemma ddel_nodup (l : dict) (k : string) : NoDup (map fst l) -> NoDup (map fst (ddel l k)).
Proof.
  induction l as [|[j u] r IH]; simpl; intros H; [constructor|].
  inversion H as [|? ? Hn Hr]; subst.
  destruct (String.eqb k j); simpl; [exact Hr|].
  constructor; [intros Hin; apply Hn; eapply ddel_keys; exact Hin | apply IH; exact Hr].
Qed.

Lemma ddel_fixed (l : dict) (k : string) : songs_fixed l = true -> songs_fixed (ddel l k) = true.
Proof.
  induction l as [|[j u] r IH]; simpl; intros H; [reflexivity|].
  apply andb_prop in H as [H1 H2].
  destruct (String.eqb k j); simpl; [exact H2 | rewrite H1; apply IH; exact H2].
Qed.

Lemma dget_ddel_same (l : dict) (k : string) : NoDup (map fst l) -> dget (ddel l k) k = None.
Proof.
  induction l as [|[j u] r IH]; simpl; intros H; [reflexivity|].
  inversion H as [|? ? Hn Hr]; subst.
  destruct (String.eqb k j) eqn:E; simpl.
  - apply String.eqb_eq in E; subst. apply dget_notin. exact Hn.
  - rewrite E. apply IH. exact Hr.
Qed.

Lemma songs_of_dict (d : dict) (s : dict) : dget d "songs" = Some (PDict s) -> songs_of (PDict d) = s.
Proof. intros H. unfold songs_of. rewrite H. reflexivity. Qed.

(** X14: a deletion answering [200] has written the catalog file, and the
    written catalog is the loaded one without the deleted ID. *)
Theorem delete_ok_rewrites_catalog (song_id : string) (w w0 w' : world) (lib : pyval) (msg : string)
    (Hl : load_library w = (w0, Ok lib))
    (H200 : delete_song_view song_id w = (w', Resp 200 msg)) :
  exists v, w_library w' = LibPresent (JsonText 0 v) /\
            songs_of v = ddel (songs_of lib) song_id /\ dget (songs_of v) song_id = None.
Proof.
  pose proof (load_library_cases w) as Hc. rewrite Hl in Hc.
  destruct Hc as [[d [songs [-> [Hs [Hf Hn]]]]] _].
  unfold delete_song_view, flask, delete_song, bind in H200. rewrite Hl in H200.
  rewrite (songs_of_dict d songs Hs) in *.
  destruct (dget songs song_id) as [si|] eqn:Esi; [|simpl in H200; discriminate].
  destruct si as [| | | | |si]; try (simpl in H200; discriminate).
  destruct (delete_audio (dget_or si "filename" PNone) w0) as [w1 [a|e]]; [|simpl in H200; discriminate].
  destruct (delete_cover (dget_or si "coverSrc" PNone) w1) as [w2 [c|e]]; [|simpl in H200; discriminate].
  destruct (a && c) eqn:Eac.
  - rewrite (save_library_fixed (dset d "songs" (PDict (ddel songs song_id))) (ddel songs song_id) w2
               (dget_dset_eq _ _ _) (ddel_fixed _ _ Hf) (ddel_nodup _ _ Hn)) in H200.
    unfold ret in H200. simpl in H200.
    destruct (w_lib_writable w2); simpl in H200; [|discriminate].
    injection H200 as <- _. simpl.
    eexists; split; [reflexivity|].
    rewrite (songs_of_dict _ (ddel songs song_id) (dget_dset_eq _ _ _)).
    split; [reflexivity | apply dget_ddel_same; exact Hn].
  - destruct a, c; simpl in H200; discriminate.
Qed.

(** X15: a deletion not answering [200] leaves the catalog file as the load
    left it: the handler writes the catalog only on success. *)
Theorem delete_failure_keeps_catalog (song_id : string) (w w' : world) (r : response)
    (Hd : delete_song_view song_id w = (w', r)) (Hs200 : status r <> 200%Z) :
  w_library w' = w_library (fst (load_library w)).
Proof.
  unfold delete_song_view, flask, delete_song, bind in Hd.
  destruct (load_library w) as [w0 [lib|e]] eqn:Hl; [|injection Hd as <- _; reflexivity].
  simpl.
  pose proof (load_library_cases w) as Hc. rewrite Hl in Hc.
  destruct Hc as [[d [songs [-> [Hs [Hf Hn]]]]] _].
  rewrite (songs_of_dict d songs Hs) in *.
  destruct (dget songs song_id) as [si|] eqn:Esi; [|injection Hd as <- _; reflexivity].
  destruct si as [| | | | |si]; try (injection Hd as <- _; reflexivity).
  destruct (delete_audio_files (dget_or si "filename" PNone) w0) as [f1 Hf1].
  destruct (delete_audio (dget_or si "filename" PNone) w0) as [w1 [a|e]]; simpl in Hf1; subst w1;
    [|injection Hd as <- _; reflexivity].
  destruct (delete_cover_files (dget_or si "coverSrc" PNone) (set_files w0 f1)) as [f2 Hf2].
  destruct (delete_cover (dget_or si "coverSrc" PNone) (set_files w0 f1)) as [w2 [c|e]];
    simpl in Hf2; subst w2; [|injection Hd as <- _; reflexivity].
  destruct (a && c) eqn:Eac.
  - rewrite (save_library_fixed (dset d "songs" (PDict (ddel songs song_id))) (ddel songs song_id) _
               (dget_dset_eq _ _ _) (ddel_fixed _ _ Hf) (ddel_nodup _ _ Hn)) in Hd.
    unfold ret in Hd. simpl in Hd.
    destruct (w_lib_writable w0) eqn:Ew; simpl in Hd.
    + injection Hd as _ <-. simpl in Hs200. congruence.
    + injection Hd as <- _. reflexivity.
  - destruct a, c; simpl in Hd; injection Hd as <- _; reflexivity.
Qed.

Lemma covers_only_refl (sid : string) (w : world) : covers_only sid w w.
Proof. split; [exists (w_files w); symmetry; apply set_files_same | reflexivity]. Qed.

Lemma covers_only_trans (sid : string) (w w1 w2 : world) :
  covers_only sid w w1 -> covers_only sid w1 w2 -> covers_only sid w w2.
Proof.
  intros [[f1 ->] H1] [[f2 ->] H2]. split.
  - exists f2. apply set_files_twice.
  - intros q Hq. rewrite H2; [apply H1; exact Hq|].
    intros ext Hx. unfold cover_out in *. simpl. apply Hq. exact Hx.
Qed.

Lemma covers_only_write (sid ext : string) (b : blob) (w : world) :
  str_in ext ALLOWED_COVER_EXTENSIONS = true ->
  covers_only sid w (fst (write_file (cover_out w sid ext) b w)).
Proof.
  intros Hx. split.
  - unfold write_file. destruct (str_in _ (w_readonly w)); simpl;
      [exists (w_files w); symmetry; apply set_files_same | eexists; reflexivity].
  - intros q Hq. apply write_file_lookup_neq. intros E. apply (Hq ext Hx). symmetry; exact E.
Qed.

Lemma save_uploaded_cover_covers (sid : string) (m0 : metadata) (cf : option upload) (w : world) :
  covers_only sid w (fst (save_uploaded_cover sid m0 cf w)).
Proof.
  unfold save_uploaded_cover.
  destruct cf as [cf|]; [|apply covers_only_refl].
  destruct (negb (String.eqb (uf_filename cf) "") && allowed_cover_file (uf_filename cf)) eqn:Ea;
    [|apply covers_only_refl].
  apply andb_prop in Ea as [_ Ea]. unfold allowed_cover_file in Ea.
  apply andb_prop in Ea as [_ Ea].
  pose proof (covers_only_write sid _ (uf_blob cf) w Ea) as H. unfold cover_out in H.
  unfold bind, get_world, ret.
  destruct (write_file _ (uf_blob cf) w) as [w1 [ok|e]]; simpl in *; [destruct ok|]; exact H.
Qed.

Lemma scan_apic_covers (sid : string) (tags : list (string * frame)) (w : world) :
  covers_only sid w (fst (scan_apic sid tags w)).
Proof.
  induction tags as [|[tag_name fr] r IH]; cbn [scan_apic]; [apply covers_only_refl|].
  destruct (startswith tag_name "APIC"); [|exact IH].
  destruct fr as [mime data|]; [|apply covers_only_refl].
  destruct (str_in (mime_ext mime) ALLOWED_COVER_EXTENSIONS) eqn:Ex; [|exact IH].
  pose proof (covers_only_write sid _ (Image data) w Ex) as H. unfold cover_out in H.
  unfold bind, get_world, ret.
  destruct (write_file _ (Image data) w) as [w1 [ok|e]]; simpl in *; [destruct ok|]; exact H.
Qed.

Lemma embedded_cover_covers (sid : string) (b : blob) (w : world) :
  covers_only sid w (fst (embedded_cover sid b w)).
Proof.
  unfold embedded_cover, catch.
  destruct (full_of b) as [[[|t r]|]|]; try apply covers_only_refl.
  match goal with
  | |- context [scan_apic ?a ?l ?ww] =>
      pose proof (scan_apic_covers a l ww) as H; destruct (scan_apic a l ww) as [w' [c|e]]; exact H
  end.
Qed.

Lemma get_song_metadata_covers_only (mutagen_available : bool) (fn song_id : string)
    (manual : option string) (cf : option upload) (w : world) :
  covers_only song_id w (fst (get_song_metadata mutagen_available fn song_id manual cf w)).
Proof.
  unfold get_song_metadata. unfold bind at 1.
  match goal with
  | |- context [save_uploaded_cover ?a ?b ?c w] =>
      pose proof (save_uploaded_cover_covers a b c w) as H1;
      pose proof (save_uploaded_cover_form a b c w) as H1';
      destruct (save_uploaded_cover a b c w) as [w1 [[m1 cs]|e]]; [|contradiction]
  end.
  simpl in H1. cbn beta iota. unfold bind, get_world, ret.
  destruct mutagen_available;
    [destruct (fs_lookup (w_files w1) (resolve_str (w_cwd w1) (pjoin (Path UPLOAD_FOLDER) (Path fn)))) as [b|] |];
    try exact H1.
  destruct cs; [exact H1|].
  pose proof (embedded_cover_covers song_id b w1) as H2.
  destruct (embedded_cover song_id b w1) as [w2 [[c'|]|e]]; simpl in *;
    eapply covers_only_trans; eassumption.
Qed.

Lemma save_uploaded_cover_saved (song_id : string) (m0 : metadata) (cf : upload) (w : world)
    (Hn : uf_filename cf <> "") (Ha : allowed_cover_file (uf_filename cf) = true)
    (Hrw : str_in (cover_out w song_id (lower (after_last "."%char (uf_filename cf)))) (w_readonly w) = false) :
  save_uploaded_cover song_id m0 (Some cf) w =
    (set_files w (fs_write (w_files w) (cover_out w song_id (lower (after_last "."%char (uf_filename cf))))
                           (uf_blob cf)),
     Ok (with_cover m0 (Some ("/covers/" ++ song_id ++ "." ++ lower (after_last "."%char (uf_filename cf)))),
         true)).
Proof.
  apply String.eqb_neq in Hn.
  unfold save_uploaded_cover. rewrite Hn, Ha. cbn [negb andb]. cbv beta zeta.
  unfold bind, get_world, write_file, ret. unfold cover_out in Hrw. rewrite Hrw. reflexivity.
Qed.

(** X7: a non-empty uploaded cover of an allowed type whose target path is
    writable is written to [covers/<song id>.<ext>] and is the record's
    [coverSrc]; later steps of the resolver neither replace nor overwrite it. *)
Theorem uploaded_cover_wins (mutagen_available : bool) (fn song_id : string)
    (manual : option string) (cf : upload) (w : world)
    (Hn : uf_filename cf <> "") (Ha : allowed_cover_file (uf_filename cf) = true)
    (Hrw : str_in (cover_out w song_id (lower (after_last "."%char (uf_filename cf)))) (w_readonly w) = false) :
  match get_song_metadata mutagen_available fn song_id manual (Some cf) w with
  | (w', Ok m) =>
      m_coverSrc m = Some ("/covers/" ++ song_id ++ "." ++ lower (after_last "."%char (uf_filename cf))) /\
      fs_lookup (w_files w') (cover_out w song_id (lower (after_last "."%char (uf_filename cf)))) =
        Some (uf_blob cf)
  | (_, Raise _) => False
  end.
Proof.
  unfold get_song_metadata. unfold bind at 1.
  match goal with
  | |- context [save_uploaded_cover ?a ?m0 (Some cf) w] =>
      rewrite (save_uploaded_cover_saved a m0 cf w Hn Ha Hrw)
  end.
  cbn beta iota. unfold bind, get_world, ret.
  set (w1 := set_files w _).
  assert (Hl : fs_lookup (w_files w1) (cover_out w song_id (lower (after_last "."%char (uf_filename cf))))
               = Some (uf_blob cf)).
  { unfold w1, fs_write. cbn [w_files set_files fs_lookup]. rewrite String.eqb_refl. reflexivity. }
  destruct mutagen_available;
    [destruct (fs_lookup (w_files w1) (resolve_str (w_cwd w1) (pjoin (Path UPLOAD_FOLDER) (Path fn)))) as [b|] |];
    cbn beta iota; split; try exact Hl; try reflexivity.
  apply read_basic_tags_srcs.
Qed.

Lemma save_uploaded_cover_fields (song_id : string) (m0 : metadata) (cf : option upload) (w : world) :
  match save_uploaded_cover song_id m0 cf w with
  | (_, Ok (m1, _)) =>
      m_id m1 = m_id m0 /\ m_filename m1 = m_filename m0 /\ m_title m1 = m_title m0 /\
      m_artist m1 = m_artist m0 /\ m_album m1 = m_album m0 /\ m_genre m1 = m_genre m0
  | (_, Raise _) => False
  end.
Proof.
  unfold save_uploaded_cover.
  destruct cf as [cf|]; [|simpl; tauto].
  destruct (negb (String.eqb (uf_filename cf) "") && allowed_cover_file (uf_filename cf)); [|simpl; tauto].
  unfold bind, get_world, write_file, ret.
  destruct (str_in _ (w_readonly w)); simpl; tauto.
Qed.

(** X8: when tags are not read (the tag library is unavailable, or the audio
    file is absent), the record has the song ID, the file name, the file's
    stem as title, the default album and genre, and as artist the manual
    name if given, else the sentinel of the case. *)
Theorem unread_tags_defaults (mutagen_available : bool) (fn song_id : string)
    (manual : option string) (cf : option upload) (w : world)
    (Hun : mutagen_available = false \/
           (fs_lookup (w_files w) (mp3_target w fn) = None /\
            forall ext, str_in ext ALLOWED_COVER_EXTENSIONS = true ->
                        cover_out w song_id ext <> mp3_target w fn)) :
  match get_song_metadata mutagen_available fn song_id manual cf w with
  | (_, Ok m) =>
      m_id m = song_id /\ m_filename m = fn /\ m_title m = stem fn /\
      m_album m = "Unknown Album" /\ m_genre m = "Unknown Genre" /\
      m_artist m = match manual_given manual with
                   | Some a => a
                   | None => if mutagen_available then "N/A (File missing?)"
                             else "N/A (mutagen not installed)"
                   end
  | (_, Raise _) => False
  end.
Proof.
  unfold get_song_metadata. unfold bind at 1.
  match goal with
  | |- context [save_uploaded_cover ?a ?m0 ?c w] =>
      pose proof (save_uploaded_cover_fields a m0 c w) as H1;
      assert (H2 : mutagen_available = true ->
                   match save_uploaded_cover a m0 c w with
                   | (w1, Ok (m1, _)) =>
                       w_cwd w1 = w_cwd w /\ m_artist m1 = m_artist m0 /\
                       fs_lookup (w_files w1) (mp3_target w fn) = fs_lookup (w_files w) (mp3_target w fn)
                   | (_, Raise _) => False
                   end)
        by (intros Hm; destruct Hun as [Hf|[_ Hsep]]; [congruence|];
            apply save_uploaded_cover_keeps_mp3; exact Hsep);
      destruct (save_uploaded_cover a m0 c w) as [w1 [[m1 cs]|e]]; [|contradiction]
  end.
  destruct H1 as [Hi [Hfn [Ht [Har [Hal Hg]]]]]. simpl in Hi, Hfn, Ht, Har, Hal, Hg.
  cbn beta iota. unfold bind, get_world, ret.
  destruct mutagen_available.
  - destruct Hun as [Hf|[Hnone _]]; [discriminate|].
    destruct (H2 eq_refl) as [Hcwd [_ Hl]].
    unfold mp3_target in Hl, Hnone. rewrite Hcwd, Hl, Hnone. cbn beta iota. simpl.
    repeat split; try assumption.
    destruct (manual_given manual) as [a|] eqn:Em.
    + apply final_artist_manual. exact Em.
    + unfold final_artist. rewrite Em. reflexivity.
  - cbn beta iota. simpl. repeat split; try assumption.
    destruct (manual_given manual) as [a|] eqn:Em.
    + apply final_artist_manual. exact Em.
    + unfold final_artist. rewrite Em. reflexivity.
Qed.

Lemma remove_if_file_files (rp : string) (w : world) :
  exists f, remove_if_file rp w = (set_files w f, Ok tt).
Proof.
  unfold remove_if_file, bind, get_world, put_world, ret.
  destruct (fs_is_file w rp && negb (str_in rp (w_locked w))); [eexists; reflexivity|].
  exists (w_files w). rewrite set_files_same. reflexivity.
Qed.

Ltac rm_files :=
  repeat match goal with
         | |- context [remove_if_file ?p ?ww] =>
             let f := fresh "f" in let E := fresh "E" in
             destruct (remove_if_file_files p ww) as [f E]; rewrite E; cbn beta iota
         | |- context [get_world ?ww] => unfold get_world at 1; cbn beta iota
         end.

Ltac cleanup_tac :=
  unfold bind, ret; rm_files;
  repeat match goal with
         | |- context [match m_coverSrc ?md with _ => _ end] => destruct (m_coverSrc md)
         | |- context [if ?c then _ else _] => destruct c
         end; rm_files; cbn beta iota.

(** X9: when the catalog file cannot be written, an upload never answers
    [201] and never raises: it answers [400] or [500], and the catalog file
    is left as it was. *)
Theorem upload_unwritable (mutagen_available : bool) (rq : request) (w : world)
    (Hw : w_lib_writable w = false) :
  match upload_file mutagen_available rq w with
  | (w', Ok r) => (status r = 400%Z \/ status r = 500%Z) /\ w_library w' = w_library w
  | (_, Raise _) => False
  end.
Proof.
  unfold upload_file.
  destruct (alookup (rq_files rq) "file") as [mp3|]; [|simpl; auto].
  destruct (String.eqb (uf_filename mp3) ""); [simpl; auto|].
  destruct (negb (allowed_file (uf_filename mp3))); [simpl; auto|].
  match goal with |- context [if ?c then ret (Resp 400 _) else _] => destruct c end; [simpl; auto|].
  destruct (splitext (secure_filename (uf_filename mp3))) as [base ext].
  unfold bind at 1, get_world at 1. cbv beta zeta.
  set (sp := upload_path w _).
  set (fname := free_name w base ext 1 _ _).
  unfold bind at 1, write_file at 1.
  destruct (str_in sp (w_readonly w)); cbn [negb]; cbn beta iota.
  - cleanup_tac; (simpl; split; [right; reflexivity | reflexivity]).
  - unfold bind, fresh_uuid; cbn beta iota.
    match goal with
    | |- context [get_song_metadata ?a ?b ?c ?d ?e ?ww] =>
        pose proof (get_song_metadata_covers_only a b c d e ww) as [[f3 Hf3] _];
        pose proof (get_song_metadata_srcs a b c d e ww) as Hs;
        destruct (get_song_metadata a b c d e ww) as [w3 [md|err]]; [|contradiction]
    end.
    simpl in Hf3. subst w3. cbn beta iota.
    match goal with
    | |- context [load_library ?ww] =>
        pose proof (load_library_cases ww) as Hl; destruct (load_library ww) as [w4 [lib|e]]
    end.
    + destruct Hl as [_ [->|[n [[Hw' _]|[_ ->]]]]]; [| simpl in Hw'; congruence |];
      match goal with
      | |- context [save_library ?v ?ww] =>
          pose proof (save_library_effect v ww) as Hsv; destruct (save_library v ww) as [w5 [[v5 b5]|e]]
      end;
      try (destruct b5; [destruct Hsv as [Hw' _]; simpl in Hw'; congruence|]);
      subst w5; cleanup_tac; (simpl; split; [right; reflexivity | reflexivity]).
    + destruct Hl as [n ->]. cleanup_tac; (simpl; split; [right; reflexivity | reflexivity]).
Qed.

Lemma frames_ret {A} (a : A) : frames (ret a).
Proof. intros w f. reflexivity. Qed.

Lemma frames_raise {A} (e : exc) : frames (@raise A e).
Proof. intros w f. reflexivity. Qed.

Lemma frames_fresh : frames fresh_uuid.
Proof. intros w f. destruct w; reflexivity. Qed.

Lemma frames_write_library (fm : nat) (v : pyval) : frames (write_library fm v).
Proof. intros w f. unfold write_library. simpl w_lib_writable. destruct (w_lib_writable w); destruct w; reflexivity. Qed.

Lemma frames_bind {A B} (m : M A) (k : A -> M B) :
  frames m -> (forall a, frames (k a)) -> frames (bind m k).
Proof.
  intros Hm Hk w f. unfold bind. rewrite Hm.
  destruct (m w) as [w1 [a|e]]; simpl; [apply Hk | reflexivity].
Qed.

Ltac frames_tac :=
  repeat first
    [ apply frames_ret | apply frames_raise | apply frames_fresh | apply frames_write_library
    | apply frames_bind
    | match goal with
      | |- forall _, _ => intros
      | |- frames (match ?x with _ => _ end) => destruct x
      | |- frames (if ?c then _ else _) => destruct c
      end
    | progress cbv beta iota zeta ].

Lemma frames_normalize_entry (key : string) (sd : pyval) : frames (normalize_entry key sd).
Proof. destruct sd; unfold normalize_entry; frames_tac. Qed.

Lemma frames_normalize_all (items acc : dict) (b : bool) : frames (normalize_all items acc b).
Proof.
  revert acc b. induction items as [|[key sd] r IH]; intros acc b; simpl; frames_tac.
  - apply frames_normalize_entry.
  - apply IH.
Qed.

Lemma frames_save_library (v : pyval) : frames (save_library v).
Proof. unfold save_library; frames_tac. Qed.

Lemma load_library_files (w : world) (f : list (string * blob)) :
  load_library (set_files w f) = (set_files (fst (load_library w)) f, snd (load_library w)).
Proof.
  unfold load_library. simpl w_library.
  destruct (w_library w) as [| |[| |fmt data]]; try reflexivity.
  destruct data; try reflexivity.
  match goal with |- ?m (set_files w f) = _ => assert (H : frames m) end.
  { frames_tac. apply frames_normalize_all. apply frames_save_library. }
  apply H.
Qed.

Lemma easy_step_id (tags : list (string * list string)) (manual : option string) (m : metadata) :
  m_id (easy_step tags manual m) = m_id m.
Proof.
  unfold easy_step.
  destruct (manual_given manual);
  repeat match goal with
         | |- context [match ?e with _ => _ end] => destruct e
         end; reflexivity.
Qed.

Lemma get_song_metadata_id (mutagen_available : bool) (fn song_id : string)
    (manual : option string) (cf : option upload) (w : world) :
  match get_song_metadata mutagen_available fn song_id manual cf w with
  | (_, Ok m) => m_id m = song_id
  | (_, Raise _) => True
  end.
Proof.
  unfold get_song_metadata. unfold bind at 1.
  match goal with
  | |- context [save_uploaded_cover ?a ?b ?c w] =>
      pose proof (save_uploaded_cover_fields a b c w) as H1;
      destruct (save_uploaded_cover a b c w) as [w1 [[m1 cs]|e]]; [|exact I]
  end.
  destruct H1 as [Hi _]. simpl in Hi.
  cbn beta iota. unfold bind, get_world, ret.
  assert (Hr : forall b, m_id (read_basic_tags b manual m1) = song_id).
  { intros b. unfold read_basic_tags. destruct (easy_of b); [rewrite easy_step_id; exact Hi | |];
      destruct (manual_given manual); exact Hi. }
  destruct mutagen_available;
    [destruct (fs_lookup (w_files w1) (resolve_str (w_cwd w1) (pjoin (Path UPLOAD_FOLDER) (Path fn)))) as [b|] |];
    cbn beta iota; try exact Hi.
  destruct cs; [simpl; apply Hr|].
  destruct (embedded_cover song_id b w1) as [w2 [[c'|]|e]]; simpl; try exact I; apply Hr.
Qed.

Lemma set_uuid_files (w : world) (f : list (string * blob)) (n : nat) :
  set_uuid (set_files w f) n = set_files (set_uuid w n) f.
Proof. destruct w; reflexivity. Qed.

Lemma metadata_fixed (md : metadata) (sid : string) :
  m_id md = sid -> Nat.leb 10 (String.length sid) = true -> cover_form sid (m_coverSrc md) ->
  record_fixed sid (metadata_to_py md) = true.
Proof.
  intros Hi Hl Hc. unfold record_fixed, metadata_to_py. cbn -[Nat.leb String.length].
  rewrite Hi, String.eqb_refl, Hl. cbn -[cover_rooted].
  destruct Hc as [->|[ext [_ ->]]]; reflexivity.
Qed.

Lemma upload_created_record_cases (mutagen_available : bool) (rq : request) (w : world) :
  match upload_file mutagen_available rq w with
  | (w', Ok r) =>
      status r = 201%Z ->
      exists lib v md fn,
        snd (load_library (set_uuid w (S (w_uuid w)))) = Ok lib /\
        w_library w' = LibPresent (JsonText 0 v) /\
        songs_of v = dset (songs_of lib) (uuid_str (w_uuid w)) (metadata_to_py md) /\
        m_id md = uuid_str (w_uuid w) /\ m_audioSrc md = "/uploads/" ++ fn /\
        r = Resp 201 ("File '" ++ fn ++ "' uploaded.")
  | (_, Raise _) => True
  end.
Proof.
  unfold upload_file.
  destruct (alookup (rq_files rq) "file") as [mp3|]; [|simpl; discriminate].
  destruct (String.eqb (uf_filename mp3) ""); [simpl; discriminate|].
  destruct (negb (allowed_file (uf_filename mp3))); [simpl; discriminate|].
  match goal with |- context [if ?c then ret (Resp 400 _) else _] => destruct c end; [simpl; discriminate|].
  destruct (splitext (secure_filename (uf_filename mp3))) as [base ext].
  unfold bind at 1, get_world at 1. cbv beta zeta.
  set (sp := upload_path w _).
  set (fname := free_name w base ext 1 _ _).
  unfold bind at 1, write_file at 1.
  destruct (str_in sp (w_readonly w)); cbn [negb]; cbn beta iota.
  - cleanup_tac; simpl; discriminate.
  - unfold bind, fresh_uuid; cbn beta iota.
    match goal with
    | |- context [get_song_metadata ?a ?b ?c ?d ?e ?ww] =>
        pose proof (get_song_metadata_covers_only a b c d e ww) as [[f3 Hf3] _];
        pose proof (get_song_metadata_srcs a b c d e ww) as Hs;
        pose proof (get_song_metadata_id a b c d e ww) as Hi;
        destruct (get_song_metadata a b c d e ww) as [w3 [md|err]]; [|contradiction]
    end.
    simpl in Hf3. subst w3. cbn beta iota.
    destruct Hs as [Ha Hc]. simpl w_uuid in *.
    rewrite set_uuid_files, set_files_twice, load_library_files.
    pose proof (load_library_cases (set_uuid w (S (w_uuid w)))) as Hl.
    destruct (load_library (set_uuid w (S (w_uuid w)))) as [w4 [lib|e]]; cbn [fst snd]; cbn beta iota.
    + destruct Hl as [[d [songs [-> [Hsd [Hf Hn]]]]] _].
      first [rewrite (songs_of_dict d songs Hsd) | rewrite Hsd]; cbn beta iota.
      assert (Hf' : songs_fixed (dset songs (uuid_str (w_uuid w)) (metadata_to_py md)) = true).
      { apply dset_fixed; [exact Hf | apply metadata_fixed; [exact Hi | apply uuid_str_long | exact Hc]]. }
      rewrite (save_library_fixed _ _ _ (dget_dset_eq _ _ _) Hf' (dset_nodup _ _ _ Hn)).
      destruct (w_lib_writable (set_files w4 _)); cbn beta iota.
      * intros _. exists (PDict d), (PDict (dset d "songs" (PDict (dset songs (uuid_str (w_uuid w)) (metadata_to_py md))))), md, fname.
        split; [reflexivity|]. split; [reflexivity|].
        rewrite (songs_of_dict _ _ (dget_dset_eq _ _ _)), (songs_of_dict d songs Hsd).
        split; [reflexivity|]. split; [exact Hi|]. split; [exact Ha | reflexivity].
      * cleanup_tac; simpl; discriminate.
    + cleanup_tac; simpl; discriminate.
Qed.


Lemma split_on_app_sep (c : ascii) (s e : string) :
  exists h t, split_on c (s ++ String c e) = h :: t ++ split_on c e.
Proof.
  induction s as [|a r [h [t IH]]]; simpl.
  - rewrite Ascii.eqb_refl. exists "", []. reflexivity.
  - rewrite IH. destruct (Ascii.eqb a c).
    + exists "", (h :: t). reflexivity.
    + exists (String a h), t. reflexivity.
Qed.

Lemma split_on_nochar (c : ascii) (e : string) : has_char c e = false -> split_on c e = [e].
Proof.
  induction e as [|a r IH]; simpl; [reflexivity|].
  intros H. apply orb_false_iff in H as [Ha Hr]. rewrite Ha, (IH Hr). reflexivity.
Qed.

Lemma after_last_app (c : ascii) (s e : string) :
  has_char c e = false -> after_last c (s ++ String c e) = e.
Proof.
  intros He. unfold after_last.
  destruct (split_on_app_sep c s e) as [h [t ->]]. rewrite (split_on_nochar c e He).
  rewrite app_comm_cons, last_last. reflexivity.
Qed.

Lemma has_char_app_sep (c : ascii) (s e : string) : has_char c (s ++ String c e) = true.
Proof.
  induction s as [|a r IH]; simpl; [rewrite Ascii.eqb_refl; reflexivity | rewrite IH, orb_true_r; reflexivity].
Qed.

(** X12: the allowed-type checks look only at the text after the last dot,
    case-insensitively: for a name [base.e] where [e] has no dot, the name is
    accepted exactly when the lowercased [e] is in the allowed list, whatever
    dots [base] holds. *)
Theorem allowed_by_last_extension (base e : string) (He : has_char "."%char e = false) :
  allowed_file (base ++ "." ++ e) = str_in (lower e) ALLOWED_EXTENSIONS /\
  allowed_cover_file (base ++ "." ++ e) = str_in (lower e) ALLOWED_COVER_EXTENSIONS.
Proof.
  unfold allowed_file, allowed_cover_file.
  change ("." ++ e) with (String "."%char e).
  rewrite has_char_app_sep, after_last_app by exact He. split; reflexivity.
Qed.

(** X1: a load that succeeds returns a normalised catalog with distinct
    IDs, and changes nothing but the ID counter and, when it rewrites the
    catalog file, that file; it writes the file only when it is writable,
    and then as the catalog it returns. *)
Theorem load_library_result (w : world) :
  match load_library w with
  | (w', Ok lib) =>
      catalog_fixed lib /\
      (w' = w \/
       exists n, (w_lib_writable w = true /\
                  w' = set_library (set_uuid w n) (LibPresent (JsonText 0 lib))) \/
                 (w_lib_writable w = false /\ w' = set_uuid w n))
  | (w', Raise _) => exists n, w' = set_uuid w n
  end.
Proof. exact (load_library_cases w). Qed.

(** X3: [save_library] changes the world only when it reports success, and
    then only by writing the catalog file, which was writable; a [False]
    result or an exception leaves everything as it was. *)
Theorem save_library_writes_only_on_success (lib : pyval) (w : world) :
  match save_library lib w with
  | (w', Ok (_, true)) => w_lib_writable w = true /\ exists f v, w' = set_library w (LibPresent (JsonText f v))
  | (w', _) => w' = w
  end.
Proof. exact (save_library_effect lib w). Qed.

(** X5: loading and saving the catalog neither read nor change the audio
    and cover files: with other files on disk they do the same. *)
Theorem catalog_ignores_media (w : world) (f : list (string * blob)) (v : pyval) :
  load_library (set_files w f) = (set_files (fst (load_library w)) f, snd (load_library w)) /\
  save_library v (set_files w f) = (set_files (fst (save_library v w)) f, snd (save_library v w)).
Proof. split; [apply load_library_files | apply frames_save_library]. Qed.

(** X6: the metadata resolver changes only files on disk, and of these only
    the cover paths [covers/<song id>.<ext>] of the allowed image types. *)
Theorem get_song_metadata_writes_only_covers (mutagen_available : bool) (fn song_id : string)
    (manual : option string) (cf : option upload) (w : world) :
  covers_only song_id w (fst (get_song_metadata mutagen_available fn song_id manual cf w)).
Proof. exact (get_song_metadata_covers_only mutagen_available fn song_id manual cf w). Qed.

(** X10: an upload answering [201] has written the catalog file: it holds
    the catalog the load returned, with the new record under the fresh ID,
    whose [audioSrc] is [/uploads/<name>] for the name in the message. *)
Theorem upload_created_record (mutagen_available : bool) (rq : request) (w w' : world) (r : response)
    (H : upload_file mutagen_available rq w = (w', Ok r)) (H201 : status r = 201%Z) :
  exists lib v md fn,
    snd (load_library (set_uuid w (S (w_uuid w)))) = Ok lib /\
    w_library w' = LibPresent (JsonText 0 v) /\
    songs_of v = dset (songs_of lib) (uuid_str (w_uuid w)) (metadata_to_py md) /\
    m_id md = uuid_str (w_uuid w) /\ m_audioSrc md = "/uploads/" ++ fn /\
    r = Resp 201 ("File '" ++ fn ++ "' uploaded.").
Proof.
  pose proof (upload_created_record_cases mutagen_available rq w) as Hc.
  rewrite H in Hc. exact (Hc H201).
Qed.

Lemma load_library_idempotent_witness :
  exists w1 lib,
    (load_library w_unnormalized_lib = (w1, Ok lib) /\ w_lib_writable w_unnormalized_lib = true) /\
    load_library w1 = (w1, Ok lib).
Proof.
  do 2 eexists. split; [split; [cbv; reflexivity | reflexivity]|].
  apply (load_library_idempotent w_unnormalized_lib); [cbv; reflexivity | reflexivity].
Defined.

Lemma uploaded_cover_wins_witness :
  (uf_filename cover_png <> "" /\ allowed_cover_file (uf_filename cover_png) = true /\
   str_in (cover_out w_empty "0123456789ab" (lower (after_last "."%char (uf_filename cover_png))))
          (w_readonly w_empty) = false) /\
  match get_song_metadata false "a.mp3" "0123456789ab" None (Some cover_png) w_empty with
  | (w', Ok m) =>
      m_coverSrc m = Some ("/covers/" ++ "0123456789ab" ++ "." ++ lower (after_last "."%char (uf_filename cover_png))) /\
      fs_lookup (w_files w') (cover_out w_empty "0123456789ab" (lower (after_last "."%char (uf_filename cover_png)))) =
        Some (uf_blob cover_png)
  | (_, Raise _) => False
  end.
Proof.
  split.
  - split; [discriminate | split; reflexivity].
  - apply uploaded_cover_wins; [discriminate | reflexivity | reflexivity].
Defined.

Lemma unread_tags_defaults_witness :
  (false = false \/
   (fs_lookup (w_files w_empty) (mp3_target w_empty "a.mp3") = None /\
    forall ext, str_in ext ALLOWED_COVER_EXTENSIONS = true ->
                cover_out w_empty "0123456789ab" ext <> mp3_target w_empty "a.mp3")) /\
  match get_song_metadata false "a.mp3" "0123456789ab" (Some "Band") None w_empty with
  | (_, Ok m) =>
      m_id m = "0123456789ab" /\ m_filename m = "a.mp3" /\ m_title m = stem "a.mp3" /\
      m_album m = "Unknown Album" /\ m_genre m = "Unknown Genre" /\
      m_artist m = match manual_given (Some "Band") with
                   | Some a => a
                   | None => if false then "N/A (File missing?)" else "N/A (mutagen not installed)"
                   end
  | (_, Raise _) => False
  end.
Proof.
  split; [left; reflexivity | apply unread_tags_defaults; left; reflexivity].
Defined.

Lemma upload_unwritable_witness :
  w_lib_writable w_catalog_readonly = false /\
  match upload_file true rq_song w_catalog_readonly with
  | (w', Ok r) => (status r = 400%Z \/ status r = 500%Z) /\ w_library w' = w_library w_catalog_readonly
  | (_, Raise _) => False
  end.
Proof. split; [reflexivity | apply upload_unwritable; reflexivity]. Defined.

Lemma upload_created_record_witness :
  exists w' r,
    (upload_file true rq_song w_empty = (w', Ok r) /\ status r = 201%Z) /\
    exists lib v md fn,
      snd (load_library (set_uuid w_empty (S (w_uuid w_empty)))) = Ok lib /\
      w_library w' = LibPresent (JsonText 0 v) /\
      songs_of v = dset (songs_of lib) (uuid_str (w_uuid w_empty)) (metadata_to_py md) /\
      m_id md = uuid_str (w_uuid w_empty) /\ m_audioSrc md = "/uploads/" ++ fn /\
      r = Resp 201 ("File '" ++ fn ++ "' uploaded.").
Proof.
  do 2 eexists. split; [split; [cbv; reflexivity | reflexivity]|].
  apply (upload_created_record true rq_song w_empty); [cbv; reflexivity | reflexivity].
Defined.

Lemma allowed_by_last_extension_witness :
  has_char "."%char "MP3" = false /\
  allowed_file ("My.Song.v2" ++ "." ++ "MP3") = str_in (lower "MP3") ALLOWED_EXTENSIONS /\
  allowed_cover_file ("My.Song.v2" ++ "." ++ "MP3") = str_in (lower "MP3") ALLOWED_COVER_EXTENSIONS.
Proof. split; [reflexivity | apply allowed_by_last_extension; reflexivity]. Defined.

Lemma delete_ok_rewrites_catalog_witness :
  exists w0 w' lib msg,
    (load_library w_normalized_lib = (w0, Ok lib) /\
     delete_song_view "0123456789ab" w_normalized_lib = (w', Resp 200 msg)) /\
    exists v, w_library w' = LibPresent (JsonText 0 v) /\
              songs_of v = ddel (songs_of lib) "0123456789ab" /\ dget (songs_of v) "0123456789ab" = None.
Proof.
  do 4 eexists. split; [split; cbv; reflexivity|].
  eapply (delete_ok_rewrites_catalog "0123456789ab" w_normalized_lib); cbv; reflexivity.
Defined.

Lemma delete_failure_keeps_catalog_witness :
  (delete_song_view "missing" w_normalized_lib = (w_normalized_lib, Resp 404 "Song not found") /\
   status (Resp 404 "Song not found") <> 200%Z) /\
  w_library w_normalized_lib = w_library (fst (load_library w_normalized_lib)).
Proof.
  split; [split; [reflexivity | discriminate]|].
  apply (delete_failure_keeps_catalog "missing" w_normalized_lib w_normalized_lib (Resp 404 "Song not found"));
    [reflexivity | discriminate].
Defined.
